(** * MCP client: schema translator, tool dispatch and the turn loop

    A shallow embedding of [services.py] (class [LLMService]: the translation
    of an MCP tool descriptor into a function declaration) and of [engine.py]
    (class [WorkflowEngine]: service setup, tool-name resolution and the
    multi-turn loop of [process_user_query]).

    Python values are a small universe [pyval]; a [dict] is an association
    list that keeps insertion order, with Python's in-place replacement on
    assignment to an existing key.  A string is a sequence of characters
    with code points below 256, one [ascii] each; on these [strip] and
    [lower] are Python's.  Exceptions are values of a [result] type.  The
    LLM gateway, the backend services and the constructor of the tool
    configuration are oracles. *)

From Stdlib Require Import String Ascii List ZArith Bool Lia.
Import ListNotations.
Open Scope string_scope.
Set Warnings "-register-all".

(** ** Python values and exceptions *)

Inductive pyval : Type :=
| PNone
| PBool (b : bool)
| PInt (z : Z)
| PFloat (m e : Z)
| PStr (s : string)
| PList (l : list pyval)
| PDict (d : list (string * pyval))
| PObj (cls repr : string).

Definition dict : Type := list (string * pyval).

(** An exception: its class name and [str(e)]. *)
Record exn : Type := { exn_type : string; exn_str : string }.

Inductive result (A : Type) : Type :=
| Ok (a : A)
| Raise (e : exn).
Arguments Ok {A} a.
Arguments Raise {A} e.

Definition bind {A B : Type} (r : result A) (k : A -> result B) : result B :=
  match r with
  | Ok a => k a
  | Raise e => Raise e
  end.

Notation "x <- r ;; k" := (bind r (fun x => k))
  (at level 61, r at next level, right associativity).

(** [type(v).__name__]. *)
Definition type_name (v : pyval) : string :=
  match v with
  | PNone => "NoneType"
  | PBool _ => "bool"
  | PInt _ => "int"
  | PFloat _ _ => "float"
  | PStr _ => "str"
  | PList _ => "list"
  | PDict _ => "dict"
  | PObj cls _ => cls
  end.

Definition AttributeError (v : pyval) (attr : string) : exn :=
  {| exn_type := "AttributeError";
     exn_str := "'" ++ type_name v ++ "' object has no attribute '" ++ attr ++ "'" |}.

(** ** Dictionaries *)

(** [d.get(k)]: [None] when the key is absent. *)
Fixpoint dict_get {V : Type} (k : string) (d : list (string * V)) : option V :=
  match d with
  | [] => None
  | (k', v) :: rest => if k' =? k then Some v else dict_get k rest
  end.

(** [d[k] = v]: an existing key keeps its place. *)
Fixpoint dict_set {V : Type} (k : string) (v : V) (d : list (string * V))
  : list (string * V) :=
  match d with
  | [] => [(k, v)]
  | (k', v') :: rest =>
      if k' =? k then (k, v) :: rest else (k', v') :: dict_set k v rest
  end.

(** ** Strings: [strip] and [lower] *)

(** [c.isspace()] for a code point below 256: tab to carriage return, the
    four separators 28 to 31, the space, the next-line control 133 and the
    no-break space 160. *)
Definition is_space (c : ascii) : bool :=
  let n := nat_of_ascii c in
  (((9 <=? n) && (n <=? 13)) || ((28 <=? n) && (n <=? 32))
   || (n =? 133) || (n =? 160))%nat.

Fixpoint lstrip (s : string) : string :=
  match s with
  | EmptyString => EmptyString
  | String c r => if is_space c then lstrip r else s
  end.

Fixpoint rstrip (s : string) : string :=
  match s with
  | EmptyString => EmptyString
  | String c r =>
      match rstrip r with
      | EmptyString => if is_space c then EmptyString else String c EmptyString
      | r' => String c r'
      end
  end.

(** [s.strip()]. *)
Definition strip (s : string) : string := rstrip (lstrip s).

(** [c.lower()] for a code point below 256: the letters A to Z, and the
    capital letters 192 to 222 but for the multiplication sign 215. *)
Definition lower_char (c : ascii) : ascii :=
  let n := nat_of_ascii c in
  if (((65 <=? n) && (n <=? 90))
      || ((192 <=? n) && (n <=? 222) && negb (n =? 215)))%nat
  then ascii_of_nat (n + 32) else c.

(** [s.lower()]. *)
Fixpoint lower (s : string) : string :=
  match s with
  | EmptyString => EmptyString
  | String c r => String (lower_char c) (lower r)
  end.

(** [''.join(l)]. *)
Definition join (l : list string) : string := String.concat "" l.

(** [any(p.strip() for p in l)]. *)
Definition any_nonblank (l : list string) : bool :=
  existsb (fun p => negb (strip p =? "")) l.

(** ** services.py: the schema translator *)

(** [mcp.Tool]; the translator tests [description] and [inputSchema] with
    [isinstance], so both are arbitrary values. *)
Record Tool : Type := {
  name : string;
  description : pyval;
  inputSchema : pyval
}.

Definition valid_types : list string :=
  ["string"; "number"; "integer"; "boolean"; "array"; "object"].

Definition all_str (l : list pyval) : bool :=
  forallb (fun p => match p with PStr _ => true | _ => false end) l.

(** The body of the loop over [properties], for a property entry that is a
    dict (services.py lines 86-100): the schema stored under the property's
    name, or the [AttributeError] of [.lower()] on a type that is no string. *)
Definition convert_property (schema_prop : dict) : result dict :=
  prop_type_str <-
    match dict_get "type" schema_prop with
    | None => Ok (lower "string")
    | Some (PStr s) => Ok (lower s)
    | Some v => Raise (AttributeError v "lower")
    end ;;
  let prop_type_str :=
    if existsb (String.eqb prop_type_str) valid_types
    then prop_type_str else "string" in
  let current_prop_schema : dict := [("type", PStr prop_type_str)] in
  let current_prop_schema :=
    match dict_get "description" schema_prop with
    | Some d => dict_set "description" d current_prop_schema
    | None => current_prop_schema
    end in
  let current_prop_schema :=
    match dict_get "enum" schema_prop with
    | Some (PList l) => dict_set "enum" (PList l) current_prop_schema
    | _ => current_prop_schema
    end in
  let current_prop_schema :=
    if prop_type_str =? "array"
    then dict_set "items"
           (match dict_get "items" schema_prop with
            | Some items => items
            | None => PDict [("type", PStr "string")]
            end) current_prop_schema
    else current_prop_schema in
  Ok current_prop_schema.

(** The loop over [inputSchema.get("properties", {}).items()]: an entry that
    is no dict is skipped, the first exception ends the loop. *)
Fixpoint convert_properties (props : dict) (genai_properties : dict)
  : result dict :=
  match props with
  | [] => Ok genai_properties
  | (pname, PDict schema_prop) :: rest =>
      current_prop_schema <- convert_property schema_prop ;;
      convert_properties rest
        (dict_set pname (PDict current_prop_schema) genai_properties)
  | (_, _) :: rest => convert_properties rest genai_properties
  end.

Definition default_description (tool_name : string) : string :=
  "Tool to perform " ++ tool_name.

Definition _convert_mcp_tool_to_genai_function (mcp_tool : Tool)
  : result pyval :=
  let parameters_schema : dict :=
    [("type", PStr "object"); ("properties", PDict [])] in
  parameters_schema <-
    match inputSchema mcp_tool with
    | PDict ((_ :: _) as schema) =>
        props <-
          match dict_get "properties" schema with
          | None => Ok []
          | Some (PDict p) => Ok p
          | Some v => Raise (AttributeError v "items")
          end ;;
        genai_properties <- convert_properties props [] ;;
        let parameters_schema :=
          dict_set "properties" (PDict genai_properties) parameters_schema in
        let required :=
          match dict_get "required" schema with
          | Some r => r
          | None => PList []
          end in
        Ok (match required with
            | PList ((_ :: _) as l) =>
                if all_str l
                then dict_set "required" required parameters_schema
                else parameters_schema
            | _ => parameters_schema
            end)
    | _ => Ok parameters_schema
    end ;;
  let description :=
    match description mcp_tool with
    | PStr s =>
        if (s =? "") || (strip s =? "")
        then PStr (default_description (name mcp_tool))
        else PStr s
    | _ => PStr (default_description (name mcp_tool))
    end in
  Ok (PDict [("name", PStr (name mcp_tool));
             ("description", description);
             ("parameters", PDict parameters_schema)]).

(** [genai_types.Tool] and [genai_types.GenerateContentConfig]: the
    declarations as the library holds them once it has validated them. *)
Record GenaiTool : Type := { function_declarations : list pyval }.
Record GenerateContentConfig : Type := { tools : list GenaiTool }.

(** The loop of [prepare_tools_for_llm]: an unnamed tool is skipped, and so
    is a tool whose conversion raises (the [except Exception] of line 132). *)
Fixpoint convert_all (mcp_tools : list Tool) : list pyval :=
  match mcp_tools with
  | [] => []
  | tool :: rest =>
      if name tool =? "" then convert_all rest
      else match _convert_mcp_tool_to_genai_function tool with
           | Ok decl => decl :: convert_all rest
           | Raise _ => convert_all rest
           end
  end.

(** [prepare_tools_for_llm]; [genai_tool] is the constructor
    [genai_types.Tool(function_declarations=...)] of line 141, which
    validates the declarations and raises when one of them is no function
    declaration.  The call is outside the [try] of the loop, so its
    exception leaves [prepare_tools_for_llm]. *)
Definition prepare_tools_for_llm (genai_tool : list pyval -> result GenaiTool)
  (mcp_tools : list Tool) : result (option GenerateContentConfig) :=
  match mcp_tools with
  | [] => Ok None
  | _ :: _ =>
      match convert_all mcp_tools with
      | [] => Ok None
      | genai_tool_declarations =>
          gemini_tool <- genai_tool genai_tool_declarations ;;
          Ok (Some {| tools := [gemini_tool] |})
      end
  end.

(** ** [str.format] with the single keyword argument [query]

    The fragment modelled: literal text, the escapes of a doubled brace, and
    replacement fields that are a plain name.  A field with a conversion, a
    format specification, an attribute, an index or a positional number is
    outside the fragment ([FormatUnmodelled]). *)

Definition ValueError (msg : string) : exn :=
  {| exn_type := "ValueError"; exn_str := msg |}.

Definition IndexError (msg : string) : exn :=
  {| exn_type := "IndexError"; exn_str := msg |}.

(** [str(KeyError(key))] is [repr(key)]. *)
Definition KeyError (key : string) : exn :=
  {| exn_type := "KeyError"; exn_str := "'" ++ key ++ "'" |}.

Inductive fmt_outcome : Type :=
| Formatted (s : string)
| FormatRaises (e : exn)
| FormatUnmodelled.

Fixpoint string_forall (f : ascii -> bool) (s : string) : bool :=
  match s with
  | EmptyString => true
  | String c r => f c && string_forall f r
  end.

Definition is_digit (c : ascii) : bool :=
  let n := nat_of_ascii c in ((48 <=? n) && (n <=? 57))%nat.

(** A printable character that [repr] leaves as it is between single
    quotes. *)
Definition plain_char (c : ascii) : bool :=
  let n := nat_of_ascii c in
  ((32 <=? n) && (n <=? 126) && negb (n =? 39) && negb (n =? 92))%nat.

(** The characters that start a conversion, a format specification, an
    attribute, an index or a nested field. *)
Definition field_special (c : ascii) : bool :=
  ((c =? "!") || (c =? ":") || (c =? ".") || (c =? "[") || (c =? "{"))%char.

(** The value of the replacement field [field_name]: there is no positional
    argument, and [query] is the only keyword. *)
Definition lookup_field (field_name query : string) : fmt_outcome :=
  if field_name =? "" then
    FormatRaises
      (IndexError "Replacement index 0 out of range for positional args tuple")
  else if string_forall is_digit field_name then FormatUnmodelled
  else if field_name =? "query" then Formatted query
  else if string_forall plain_char field_name
       then FormatRaises (KeyError field_name)
       else FormatUnmodelled.

(** The scan of the template, left to right; [field] is the text of the
    replacement field being read, [out] the output so far. *)
Fixpoint format_scan (s : string) (field : option string) (out query : string)
  : fmt_outcome :=
  match s with
  | EmptyString =>
      match field with
      | None => Formatted out
      | Some _ =>
          FormatRaises (ValueError "expected '}' before end of string")
      end
  | String c r =>
      match field with
      | None =>
          if (c =? "{")%char then
            match r with
            | EmptyString =>
                FormatRaises
                  (ValueError "Single '{' encountered in format string")
            | String c' r' =>
                if (c' =? "{")%char
                then format_scan r' None (out ++ "{") query
                else format_scan r (Some "") out query
            end
          else if (c =? "}")%char then
            match r with
            | EmptyString =>
                FormatRaises
                  (ValueError "Single '}' encountered in format string")
            | String c' r' =>
                if (c' =? "}")%char
                then format_scan r' None (out ++ "}") query
                else FormatRaises
                       (ValueError "Single '}' encountered in format string")
            end
          else format_scan r None (out ++ String c "") query
      | Some field_name =>
          if (c =? "}")%char then
            match lookup_field field_name query with
            | Formatted v => format_scan r None (out ++ v) query
            | other => other
            end
          else if field_special c then FormatUnmodelled
          else format_scan r (Some (field_name ++ String c "")) out query
      end
  end.

(** [template.format(query=query)]. *)
Definition format (template query : string) : fmt_outcome :=
  format_scan template None "" query.

(** ** The conversation: [genai_types] as the engine reads them *)

(** [genai_types.FunctionCall]: the name, and the arguments, a mapping of
    JSON values (line 116 serialises them with [json.dumps]). *)
Record FunctionCall : Type := { fc_name : string; fc_args : option dict }.

Record FunctionResponse : Type := { fr_name : string; fr_response : dict }.

(** A [Part]; the engine tests [part.text] and [part.function_call] one after
    the other, so a Part may carry both. *)
Record Part : Type := {
  text : option string;
  function_call : option FunctionCall;
  function_response : option FunctionResponse
}.

(** [genai_types.Content]: the Parts may be [None]. *)
Record Content : Type := { parts : option (list Part); role : string }.

(** [genai_types.Candidate]: the content may be [None]. *)
Record Candidate : Type := { content : option Content }.

(** [response_text] is the attribute [llm_response.text]; a response whose
    [candidates] is [None] takes the branch of line 89 as the empty list
    does. *)
Record GenerateContentResponse : Type := {
  candidates : list Candidate;
  response_text : option string
}.

Definition text_part (s : string) : Part :=
  {| text := Some s; function_call := None; function_response := None |}.

(** [genai_types.Part.from_function_response(name=..., response=...)]. *)
Definition from_function_response (nm : string) (response : dict) : Part :=
  {| text := None; function_call := None;
     function_response := Some {| fr_name := nm; fr_response := response |} |}.

(** ** Backend services *)

(** When a service is asked for its tools: by [setup_services] (line 46), or
    by the dispatch of a function call in a turn of a query (line 124). *)
Inductive occasion : Type :=
| AtSetup
| AtTurn (turn : nat).

(** A connected MCP session: its answer to [list_tools] on each occasion,
    and its answer to a tool call, indexed by the turn that makes it. *)
Record ClientSession : Type := {
  list_tools : occasion -> result (list Tool);
  session_call_tool : nat -> string -> dict -> result pyval
}.

(** A service that [connect] has returned from: its session is set. *)
Record MCPService : Type := {
  server_name : string;
  session : ClientSession
}.

(** [MCPService.get_tools]: the session is asked on every call. *)
Definition get_tools (service : MCPService) (occ : occasion)
  : result (list Tool) :=
  list_tools (session service) occ.

Definition call_tool (service : MCPService) (turn : nat) (tool_name : string)
  (args : dict) : result pyval :=
  session_call_tool (session service) turn tool_name args.

(** ** engine.py *)

Record WorkflowConfig : Type := {
  llm_model : string;
  mcp_servers_used : list string;
  initial_prompt_template : string;
  max_conversation_turns : option Z
}.

Record WorkflowEngine : Type := {
  workflow_name : string;
  workflow_config : WorkflowConfig;
  mcp_services : list (string * MCPService);
  all_mcp_tools : list Tool
}.

(** [WorkflowEngine.__init__]. *)
Definition new_engine (wname : string) (cfg : WorkflowConfig) : WorkflowEngine :=
  {| workflow_name := wname; workflow_config := cfg;
     mcp_services := []; all_mcp_tools := [] |}.

(** The loop of [setup_services] over the server names; [connect] is the
    outcome of lines 41-44 for a name (an undefined name and a failed
    connection raise).  The service is registered (line 45) before it is
    asked for its tools (line 46): when that listing raises, the service
    stays registered and its tools are not added.  The first exception
    leaves the loop. *)
Fixpoint setup_loop (connect : string -> result ClientSession)
  (names : list string) (eng : WorkflowEngine) : WorkflowEngine * result unit :=
  match names with
  | [] => (eng, Ok tt)
  | sname :: rest =>
      match connect sname with
      | Raise e => (eng, Raise e)
      | Ok sess =>
          let service := {| server_name := sname; session := sess |} in
          let mcp_services := dict_set sname service (mcp_services eng) in
          match get_tools service AtSetup with
          | Raise e =>
              ({| workflow_name := workflow_name eng;
                  workflow_config := workflow_config eng;
                  mcp_services := mcp_services;
                  all_mcp_tools := all_mcp_tools eng |},
               Raise e)
          | Ok current_server_tools =>
              setup_loop connect rest
                {| workflow_name := workflow_name eng;
                   workflow_config := workflow_config eng;
                   mcp_services := mcp_services;
                   all_mcp_tools :=
                     all_mcp_tools eng ++ current_server_tools |}
          end
      end
  end.

Definition setup_services (connect : string -> result ClientSession)
  (eng : WorkflowEngine) : WorkflowEngine * result unit :=
  setup_loop connect (mcp_servers_used (workflow_config eng)) eng.

(** The loop of lines 123-128: the first service, in the order of the
    dictionary, one of whose tools has the requested name.  Every service
    is asked for its tools as the loop reaches it, and an exception of that
    listing leaves the loop. *)
Fixpoint find_service (occ : occasion) (tool_name : string)
  (services : list (string * MCPService)) : result (option MCPService) :=
  match services with
  | [] => Ok None
  | (_, mcp_service) :: rest =>
      service_tools <- get_tools mcp_service occ ;;
      if existsb (fun t => name t =? tool_name) service_tools
      then Ok (Some mcp_service)
      else find_service occ tool_name rest
  end.

(** *** [process_user_query] *)

Record LoopState : Type := {
  conversation_history : list Content;
  final_response_parts : list string;
  (** ghost: the outcome of every call of the LLM gateway, in order *)
  llm_log : list (result GenerateContentResponse)
}.

(** How an iteration of the turn loop ends: it falls through to the next
    iteration, it leaves the loop by [break], or an exception leaves
    [process_user_query]. *)
Inductive control : Type :=
| Continue
| Break
| Abort (e : exn).

(** How [process_user_query] ends: a returned string, an exception, or a
    template outside the modelled fragment of [str.format]. *)
Inductive outcome : Type :=
| Returned (s : string)
| Raised (e : exn)
| Unmodelled.

(** A run of [process_user_query]: how it ends, the conversation built when
    it ends, and the outcomes of the calls of the gateway. *)
Record QueryRun : Type := {
  answer : outcome;
  history : list Content;
  llm_calls : list (result GenerateContentResponse)
}.

Definition TypeError (msg : string) : exn :=
  {| exn_type := "TypeError"; exn_str := msg |}.

Definition not_initialized_message : string :=
  "Error: Workflow services are not initialized.".

Definition no_candidates_marker : string :=
  String "010" "[AI model returned no response candidates.]".

Definition no_text_marker : string :=
  "[AI model provided no further text or actions.]".

Definition max_turns_no_text_marker : string :=
  String "010" "[Max interaction turns reached. No final text generated.]".

Definition max_turns_marker : string :=
  String "010" "[Max interaction turns reached.]".

(** Line 83. *)
Definition llm_error_message (wname : string) (e : exn) : string :=
  "Error communicating with LLM in workflow '" ++ wname ++ "': " ++ exn_str e.

(** Line 144. *)
Definition tool_error_message (tool_name sname : string) (e : exn) : string :=
  "Error executing MCP tool '" ++ tool_name ++ "' via '" ++ sname ++ "': "
  ++ exn_str e.

(** Line 149. *)
Definition tool_not_found_message (tool_name wname : string) : string :=
  "Tool '" ++ tool_name
  ++ "' requested by LLM but not found in any active MCP service for workflow '"
  ++ wname ++ "'.".

(** Lines 138-141: a dict is passed on as it is, anything else is stored
    under [output]. *)
Definition wrap_tool_result (mcp_result : pyval) : dict :=
  match mcp_result with
  | PDict d => d
  | _ => [("output", mcp_result)]
  end.

(** The scan of the Parts (lines 102-110 and the [break] of line 159): the
    text collected up to and including the Part that carries the first
    function call, and that call. *)
Fixpoint scan_parts (ps : list Part) (text_from_llm_this_turn : list string)
  : list string * option FunctionCall :=
  match ps with
  | [] => (text_from_llm_this_turn, None)
  | part :: rest =>
      let text_from_llm_this_turn :=
        match text part with
        | Some t =>
            if negb (t =? "") && negb (strip t =? "")
            then (text_from_llm_this_turn ++ [t])%list
            else text_from_llm_this_turn
        | None => text_from_llm_this_turn
        end in
      match function_call part with
      | Some fc => (text_from_llm_this_turn, Some fc)
      | None => scan_parts rest text_from_llm_this_turn
      end
  end.

Section Engine.

(** The LLM gateway: the outcome of [generate_response] at a turn, on a
    conversation and a tool configuration. *)
Variable generate_response :
  nat -> list Content -> option GenerateContentConfig ->
  result GenerateContentResponse.

(** The constructor of [genai_types.Tool]. *)
Variable genai_tool : list pyval -> result GenaiTool.

(** [traceback.format_exc(limit=3)] while an exception is handled. *)
Variable format_exc : exn -> string.

(** Lines 112-152: the payload answered to a function call.  The search of
    the service is outside the [try] of line 131, so an exception of a
    listing is the outcome. *)
Definition tool_result_for_llm (eng : WorkflowEngine) (turn : nat)
  (fc : FunctionCall) : result dict :=
  let tool_name := fc_name fc in
  let tool_args : dict :=
    match fc_args fc with
    | Some a => a
    | None => []
    end in
  found_service_for_tool <-
    find_service (AtTurn turn) tool_name (mcp_services eng) ;;
  match found_service_for_tool with
  | Some found_service_for_tool =>
      match call_tool found_service_for_tool turn tool_name tool_args with
      | Ok mcp_result => Ok (wrap_tool_result mcp_result)
      | Raise e =>
          Ok [("error",
               PStr (tool_error_message tool_name
                       (server_name found_service_for_tool) e));
              ("details", PStr (format_exc e))]
      end
  | None =>
      Ok [("error",
           PStr (tool_not_found_message tool_name (workflow_name eng)))]
  end.

(** The user-role Turn appended after a function call (lines 154-158). *)
Definition tool_response_content (eng : WorkflowEngine) (turn : nat)
  (fc : FunctionCall) : result Content :=
  tool_result_for_llm <- tool_result_for_llm eng turn fc ;;
  Ok {| parts := Some [from_function_response (fc_name fc)
                         tool_result_for_llm];
        role := "user" |}.

(** Lines 161-172: the answer buffer after a turn without function call. *)
Definition final_turn_parts (final_response_parts text_from_llm_this_turn
  : list string) (llm_response : GenerateContentResponse) : list string :=
  let final_response_parts :=
    match text_from_llm_this_turn with
    | _ :: _ => (final_response_parts ++ text_from_llm_this_turn)%list
    | [] =>
        match response_text llm_response with
        | Some t =>
            if negb (any_nonblank final_response_parts)
               && negb (t =? "") && negb (strip t =? "")
            then (final_response_parts ++ [t])%list
            else final_response_parts
        | None => final_response_parts
        end
    end in
  match final_response_parts with
  | [] => [no_text_marker]
  | _ :: _ =>
      if negb (any_nonblank final_response_parts)
      then (final_response_parts ++ [no_text_marker])%list
      else final_response_parts
  end.

(** One iteration of [for turn in range(max_turns)] (lines 77-172).  A
    candidate without content makes [model_content.parts] raise at line 102,
    a content without Parts makes the loop over them raise; the [None] that
    line 97 has appended in the first case is not kept in the state. *)
Definition turn_body (eng : WorkflowEngine)
  (llm_tool_config : option GenerateContentConfig) (turn : nat)
  (st : LoopState) : control * LoopState :=
  let r := generate_response turn (conversation_history st) llm_tool_config in
  let log := (llm_log st ++ [r])%list in
  match r with
  | Raise e =>
      let err_msg := llm_error_message (workflow_name eng) e in
      (Break,
       {| conversation_history := conversation_history st;
          final_response_parts :=
            (final_response_parts st
             ++ [String "010" ("[" ++ err_msg ++ "]")])%list;
          llm_log := log |})
  | Ok llm_response =>
      match candidates llm_response with
      | [] =>
          (Break,
           {| conversation_history := conversation_history st;
              final_response_parts :=
                (final_response_parts st ++ [no_candidates_marker])%list;
              llm_log := log |})
      | candidate :: _ =>
          match content candidate with
          | None =>
              (Abort (AttributeError PNone "parts"),
               {| conversation_history := conversation_history st;
                  final_response_parts := final_response_parts st;
                  llm_log := log |})
          | Some model_content =>
              let conversation_history :=
                (conversation_history st ++ [model_content])%list in
              match parts model_content with
              | None =>
                  (Abort (TypeError "'NoneType' object is not iterable"),
                   {| conversation_history := conversation_history;
                      final_response_parts := final_response_parts st;
                      llm_log := log |})
              | Some model_parts =>
                  match scan_parts model_parts [] with
                  | (_, Some fc) =>
                      match tool_response_content eng turn fc with
                      | Raise e =>
                          (Abort e,
                           {| conversation_history := conversation_history;
                              final_response_parts := final_response_parts st;
                              llm_log := log |})
                      | Ok tool_response =>
                          (Continue,
                           {| conversation_history :=
                                (conversation_history
                                 ++ [tool_response])%list;
                              final_response_parts := final_response_parts st;
                              llm_log := log |})
                      end
                  | (text_from_llm_this_turn, None) =>
                      (Break,
                       {| conversation_history := conversation_history;
                          final_response_parts :=
                            final_turn_parts (final_response_parts st)
                              text_from_llm_this_turn llm_response;
                          llm_log := log |})
                  end
              end
          end
      end
  end.

(** [for turn in range(max_turns)]: [n] iterations are left, the next one is
    iteration [turn].  The control says how the loop was left. *)
Fixpoint turn_loop (eng : WorkflowEngine)
  (llm_tool_config : option GenerateContentConfig) (n turn : nat)
  (st : LoopState) : control * LoopState :=
  match n with
  | O => (Continue, st)
  | S n' =>
      match turn_body eng llm_tool_config turn st with
      | (Continue, st') => turn_loop eng llm_tool_config n' (S turn) st'
      | (c, st') => (c, st')
      end
  end.

(** The [else] of the loop (lines 174-179), taken when no [break] ran. *)
Definition after_loop (c : control) (final_response_parts : list string)
  : list string :=
  match c with
  | Continue =>
      if negb (any_nonblank final_response_parts)
      then (final_response_parts ++ [max_turns_no_text_marker])%list
      else (final_response_parts ++ [max_turns_marker])%list
  | _ => final_response_parts
  end.

Definition max_turns (eng : WorkflowEngine) : Z :=
  match max_conversation_turns (workflow_config eng) with
  | Some n => n
  | None => 5%Z
  end.

Definition initial_state (initial_prompt : string) : LoopState :=
  {| conversation_history :=
       [{| parts := Some [text_part initial_prompt]; role := "user" |}];
     final_response_parts := [];
     llm_log := [] |}.

(** The state when the turn loop is left, for a budget of [n] turns. *)
Definition run_turns (eng : WorkflowEngine)
  (llm_tool_config : option GenerateContentConfig) (initial_prompt : string)
  (n : nat) : control * LoopState :=
  turn_loop eng llm_tool_config n 0 (initial_state initial_prompt).

Definition process_user_query (eng : WorkflowEngine) (user_query : string)
  : QueryRun :=
  match mcp_services eng, mcp_servers_used (workflow_config eng) with
  | [], _ :: _ =>
      {| answer := Returned not_initialized_message;
         history := []; llm_calls := [] |}
  | _, _ =>
      match format (initial_prompt_template (workflow_config eng)) user_query with
      | FormatRaises e => {| answer := Raised e; history := []; llm_calls := [] |}
      | FormatUnmodelled =>
          {| answer := Unmodelled; history := []; llm_calls := [] |}
      | Formatted initial_prompt =>
          match prepare_tools_for_llm genai_tool (all_mcp_tools eng) with
          | Raise e =>
              {| answer := Raised e;
                 history := conversation_history (initial_state initial_prompt);
                 llm_calls := [] |}
          | Ok llm_tool_config =>
              let (c, st) :=
                run_turns eng llm_tool_config initial_prompt
                  (Z.to_nat (max_turns eng)) in
              {| answer :=
                   match c with
                   | Abort e => Raised e
                   | _ =>
                       Returned
                         (strip (join (after_loop c (final_response_parts st))))
                   end;
                 history := conversation_history st;
                 llm_calls := llm_log st |}
          end
      end
  end.

End Engine.

(** ** Python's [needle in haystack] on strings *)

Fixpoint starts_with (p s : string) : bool :=
  match p, s with
  | EmptyString, _ => true
  | String a p', String b s' => (a =? b)%char && starts_with p' s'
  | String _ _, EmptyString => false
  end.

Fixpoint contains (needle haystack : string) : bool :=
  starts_with needle haystack
  || match haystack with
     | EmptyString => false
     | String _ rest => contains needle rest
     end.

(** ** Scenarios *)

(** A gateway that answers turn [n] with the [n]-th entry of a script, and
    fails once the script is over. *)
Definition scripted (script : list (result GenerateContentResponse))
  (turn : nat) (_ : list Content) (_ : option GenerateContentConfig)
  : result GenerateContentResponse :=
  nth turn script
    (Raise {| exn_type := "RuntimeError"; exn_str := "script exhausted" |}).

Definition no_traceback (_ : exn) : string := "".

(** A constructor of [genai_types.Tool] that accepts every declaration. *)
Definition plain_tool (decls : list pyval) : result GenaiTool :=
  Ok {| function_declarations := decls |}.

Definition validation_error : exn :=
  {| exn_type := "ValidationError";
     exn_str := "1 validation error for Tool" |}.

(** Whether some property of a declaration has an [items] entry that is no
    mapping. *)
Definition bad_items (decl : pyval) : bool :=
  match decl with
  | PDict d =>
      match dict_get "parameters" d with
      | Some (PDict ps) =>
          match dict_get "properties" ps with
          | Some (PDict props) =>
              existsb
                (fun kv =>
                   match snd kv with
                   | PDict cur =>
                       match dict_get "items" cur with
                       | Some (PDict _) | None => false
                       | Some _ => true
                       end
                   | _ => false
                   end) props
          | _ => false
          end
      | _ => false
      end
  | _ => false
  end.

(** A constructor of [genai_types.Tool] that refuses such a declaration. *)
Definition strict_tool (decls : list pyval) : result GenaiTool :=
  if existsb bad_items decls then Raise validation_error
  else Ok {| function_declarations := decls |}.

Definition model_turn (ps : list Part) : Content :=
  {| parts := Some ps; role := "model" |}.

Definition response_of (c : Candidate) : GenerateContentResponse :=
  {| candidates := [c]; response_text := None |}.

Definition model_says (ps : list Part) : result GenerateContentResponse :=
  Ok (response_of {| content := Some (model_turn ps) |}).

Definition call_part (tool_name : string) (args : dict) : Part :=
  {| text := None;
     function_call := Some {| fc_name := tool_name; fc_args := Some args |};
     function_response := None |}.

Definition get_weather : Tool :=
  {| name := "get_weather";
     description := PStr "Weather of a city";
     inputSchema :=
       PDict [("type", PStr "object");
              ("properties",
               PDict [("city", PDict [("type", PStr "string")])]);
              ("required", PList [PStr "city"])] |}.

(** A tool whose property type is a list of kinds, as JSON Schema allows. *)
Definition nullable_tool : Tool :=
  {| name := "lookup";
     description := PStr "Look a key up";
     inputSchema :=
       PDict [("properties",
               PDict [("key",
                       PDict [("type", PList [PStr "string"; PStr "null"])])])]
  |}.

(** A tool with an array property whose [items] entry is a string. *)
Definition tags_tool : Tool :=
  {| name := "add_tags";
     description := PStr "Tag a note";
     inputSchema :=
       PDict [("properties",
               PDict [("tags",
                       PDict [("type", PStr "array");
                              ("items", PStr "string")])])] |}.

Definition timeout_error : exn :=
  {| exn_type := "TimeoutError"; exn_str := "timed out" |}.

Definition closed_error : exn :=
  {| exn_type := "ClosedResourceError"; exn_str := "" |}.

(** A session with one tool, which answers every call with [answer_]. *)
Definition session_of (t : Tool) (answer_ : result pyval) : ClientSession :=
  {| list_tools := fun _ => Ok [t];
     session_call_tool := fun _ _ _ => answer_ |}.

(** A session that fails to list its tools. *)
Definition mute_session : ClientSession :=
  {| list_tools := fun _ => Raise closed_error;
     session_call_tool := fun _ _ _ => Raise closed_error |}.

(** A session that lists its tool during the setup and is closed when a
    query asks again. *)
Definition dropping_session : ClientSession :=
  {| list_tools :=
       fun occ =>
         match occ with
         | AtSetup => Ok [get_weather]
         | AtTurn _ => Raise closed_error
         end;
     session_call_tool := fun _ _ _ => Ok (PStr "sunny") |}.

(** A session that lists [tags_tool]. *)
Definition tags_session : ClientSession :=
  session_of tags_tool (Ok (PStr "tagged")).

Definition demo_connect (sname : string) : result ClientSession :=
  if sname =? "weather" then Ok (session_of get_weather (Ok (PStr "sunny")))
  else if sname =? "backup" then Ok (session_of get_weather (Ok (PInt 42)))
  else if sname =? "flaky" then Ok (session_of get_weather (Raise timeout_error))
  else if sname =? "mute" then Ok mute_session
  else if sname =? "dropping" then Ok dropping_session
  else if sname =? "tags" then Ok tags_session
  else Raise {| exn_type := "ValueError";
                exn_str := "MCP Server '" ++ sname ++ "' not defined." |}.

Definition demo_config (servers : list string) (template : string) (turns : Z)
  : WorkflowConfig :=
  {| llm_model := "gemini";
     mcp_servers_used := servers;
     initial_prompt_template := template;
     max_conversation_turns := Some turns |}.

(** The engine of workflow [demo] after [setup_services]. *)
Definition demo_engine (servers : list string) (template : string) (turns : Z)
  : WorkflowEngine :=
  fst (setup_services demo_connect
         (new_engine "demo" (demo_config servers template turns))).

(** Turn 0: some text and a call of [get_weather]; turn 1: the final text. *)
Definition weather_script : list (result GenerateContentResponse) :=
  [model_says [text_part "Let me check."; call_part "get_weather" []];
   model_says [text_part "It is sunny."]].

(** Turn 0 asks for a tool no service declares. *)
Definition unknown_tool_script : list (result GenerateContentResponse) :=
  [model_says [call_part "get_time" []];
   model_says [text_part "Done."]].

(** The Turns and the candidates of [weather_script]. *)
Definition checking_content : Content :=
  model_turn [text_part "Let me check."; call_part "get_weather" []].

Definition sunny_content : Content := model_turn [text_part "It is sunny."].

Definition checking_turn : Candidate := {| content := Some checking_content |}.

Definition sunny_turn : Candidate := {| content := Some sunny_content |}.

Definition weather_call : FunctionCall :=
  {| fc_name := "get_weather"; fc_args := Some [] |}.

(** A candidate whose content answers a function call that was never made. *)
Definition forged_content : Content :=
  model_turn [from_function_response "get_weather" [("output", PStr "sunny")];
              text_part "It is sunny."].

Definition forged_turn : Candidate := {| content := Some forged_content |}.

(** A response whose only text Part is blank, and whose text attribute ends
    with a no-break space. *)
Definition blank_response : GenerateContentResponse :=
  {| candidates := [{| content := Some (model_turn [text_part "  "]) |}];
     response_text := Some (" fallback" ++ String "160" "") |}.

(** The engine of workflow [demo] before [setup_services]. *)
Definition fresh_engine : WorkflowEngine :=
  new_engine "demo" (demo_config ["weather"] "Q: {query}" 3).

(** ** config.py *)

(** [d.setdefault(k, v)]. *)
Definition setdefault (k : string) (v : pyval) (d : dict) : dict :=
  match dict_get k d with
  | Some _ => d
  | None => dict_set k v d
  end.

(** The loop of [_validate_mcp_servers] over the items of [mcp_servers]: the
    items with the configurations visited so far updated by [setdefault],
    and the outcome. *)
Fixpoint validate_servers_loop (items : dict) : dict * result unit :=
  match items with
  | [] => ([], Ok tt)
  | (sname, config) :: rest =>
      match config with
      | PDict c =>
          match dict_get "command" c, dict_get "args" c with
          | Some _, Some (PList _) =>
              let c := setdefault "transportType" (PStr "stdio") c in
              match dict_get "transportType" c with
              | Some (PStr "stdio") =>
                  let (rest', r) := validate_servers_loop rest in
                  ((sname, PDict c) :: rest', r)
              | _ =>
                  ((sname, PDict c) :: rest,
                   Raise (ValueError
                            ("Unsupported transportType for '" ++ sname
                             ++ "'.")))
              end
          | _, _ =>
              (items,
               Raise (ValueError
                        ("Server '" ++ sname
                         ++ "' has invalid 'command' or 'args'.")))
          end
      | _ =>
          (items,
           Raise (ValueError
                    ("Server config for '" ++ sname
                     ++ "' must be a dictionary.")))
      end
  end.

Definition required_keys : list string :=
  ["llm_model"; "mcp_servers_used"; "initial_prompt_template";
   "max_conversation_turns"].

(** The first of the keys that the dict lacks. *)
Fixpoint first_missing (keys : list string) (d : dict) : option string :=
  match keys with
  | [] => None
  | key :: rest =>
      match dict_get key d with
      | Some _ => first_missing rest d
      | None => Some key
      end
  end.

Section Config.

(** [str(v)] of a value that is no string, and the message of the
    [TypeError] of a membership test in a dict with a value that cannot be
    hashed. *)
Variable str_of : pyval -> string.
Variable unhashable_message : pyval -> string.

(** The loop over [wf_config["mcp_servers_used"]] (lines 97-99);
    [mcp_servers] is a dict here, [_validate_mcp_servers] ran before. *)
Fixpoint check_servers_used (wname : string) (servers : dict)
  (used : list pyval) : result unit :=
  match used with
  | [] => Ok tt
  | server_name :: rest =>
      match server_name with
      | PStr s =>
          match dict_get s servers with
          | Some _ => check_servers_used wname servers rest
          | None =>
              Raise (ValueError
                       ("Workflow '" ++ wname
                        ++ "' uses undefined MCP server: '" ++ s ++ "'."))
          end
      | PList _ | PDict _ =>
          Raise {| exn_type := "TypeError";
                   exn_str := unhashable_message server_name |}
      | _ =>
          Raise (ValueError
                   ("Workflow '" ++ wname
                    ++ "' uses undefined MCP server: '" ++ str_of server_name
                    ++ "'."))
      end
  end.

(** The loop of [_validate_workflows] over the items of [workflows]. *)
Fixpoint validate_workflows_loop (servers : dict) (items : dict)
  : result unit :=
  match items with
  | [] => Ok tt
  | (wname, wf_config) :: rest =>
      match wf_config with
      | PDict wf =>
          match first_missing required_keys wf with
          | Some key =>
              Raise (ValueError
                       ("Workflow '" ++ wname ++ "' missing required key: '"
                        ++ key ++ "'."))
          | None =>
              match dict_get "mcp_servers_used" wf with
              | Some (PList used) =>
                  _ <- check_servers_used wname servers used ;;
                  validate_workflows_loop servers rest
              | _ =>
                  Raise (ValueError
                           ("Workflow '" ++ wname
                            ++ "' 'mcp_servers_used' must be a list."))
              end
          end
      | _ =>
          Raise (ValueError
                   ("Workflow config for '" ++ wname
                    ++ "' must be a dictionary."))
      end
  end.

(** [AppConfig] once [__init__] has returned: both sections are dicts. *)
Record AppConfig : Type := { mcp_servers : dict; workflows : dict }.

(** [AppConfig.__init__] from the two sections read from the files (lines
    28-35): [_validate_mcp_servers], then [_validate_workflows]; a section
    that is no dict has no [items]. *)
Definition load_config (raw_servers raw_workflows : pyval) : result AppConfig :=
  match raw_servers with
  | PDict items =>
      let (servers, r) := validate_servers_loop items in
      _ <- r ;;
      match raw_workflows with
      | PDict wfs =>
          _ <- validate_workflows_loop servers wfs ;;
          Ok {| mcp_servers := servers; workflows := wfs |}
      | v => Raise (AttributeError v "items")
      end
  | v => Raise (AttributeError v "items")
  end.

End Config.

Definition get_mcp_server_config (cfg : AppConfig) (sname : string)
  : result pyval :=
  match dict_get sname (mcp_servers cfg) with
  | Some c => Ok c
  | None => Raise (ValueError ("MCP Server '" ++ sname ++ "' not defined."))
  end.

Definition get_workflow_config (cfg : AppConfig) (wname : string)
  : result pyval :=
  match dict_get wname (workflows cfg) with
  | Some c => Ok c
  | None => Raise (ValueError ("Workflow '" ++ wname ++ "' not defined."))
  end.

Definition list_workflows (cfg : AppConfig) : list string :=
  map fst (workflows cfg).

(** The two sections of a configuration with one server and one workflow. *)
Definition demo_servers : pyval :=
  PDict [("weather",
          PDict [("command", PStr "python");
                 ("args", PList [PStr "weather.py"])])].

Definition demo_workflows : pyval :=
  PDict [("demo",
          PDict [("llm_model", PStr "gemini");
                 ("mcp_servers_used", PList [PStr "weather"]);
                 ("initial_prompt_template", PStr "Q: {query}");
                 ("max_conversation_turns", PInt 3)])].

Definition no_str (_ : pyval) : string := "".

(** ** app_logger.py *)

(** The levels of the [logging] module. *)
Definition CRITICAL : Z := 50.
Definition WARNING : Z := 30.
Definition INFO : Z := 20.
Definition DEBUG : Z := 10.

Definition LOG_LEVEL_QUIET : Z := CRITICAL + 10.
Definition LOG_LEVEL_USER_INTERACTION : Z := INFO + 5.
Definition LOG_LEVEL_NORMAL : Z := INFO.
Definition LOG_LEVEL_VERBOSE : Z := DEBUG.

Definition DEFAULT_FORMAT : string :=
  "%(asctime)s - %(levelname)-8s - %(name)-15s - %(filename)s:%(lineno)d - %(message)s".
Definition NORMAL_CONSOLE_FORMAT : string :=
  "%(asctime)s - %(levelname)-8s - %(message)s".
Definition USER_INTERACTION_CONSOLE_FORMAT : string := "%(message)s".

(** A handler of the root logger: a [NullHandler], the console handler on
    standard output, or the file handler, with level and format. *)
Inductive Handler : Type :=
| NullHandler
| StreamHandler (level : Z) (fmt : string)
| FileHandler (path : string) (level : Z) (fmt : string).

(** A handler is created with the level [NOTSET]. *)
Definition handler_level (h : Handler) : Z :=
  match h with
  | NullHandler => 0
  | StreamHandler level _ => level
  | FileHandler _ level _ => level
  end.

(** What [setup_logging] sets: the level and the handlers of the root
    logger, the level of the two third-party loggers, and the two flags of
    the module. *)
Record LoggingState : Type := {
  root_level : Z;
  root_handlers : list Handler;
  third_party_level : Z;
  is_initialized : bool;
  global_logging_enabled : bool
}.

(** [setup_logging]; every part of the state is set afresh and the old
    handlers are removed, so the state before the call plays no role.
    [file_opens] says whether the log file can be opened. *)
Definition setup_logging (level : Z) (console_level_override : option Z)
  (log_file : option string) (enable_global : bool) (file_opens : bool)
  : LoggingState :=
  if negb enable_global then
    {| root_level := LOG_LEVEL_QUIET + 1;
       root_handlers := [NullHandler];
       third_party_level := LOG_LEVEL_QUIET + 1;
       is_initialized := true;
       global_logging_enabled := false |}
  else
    let file_wanted :=
      match log_file with
      | Some path => negb (path =? "")
      | None => false
      end in
    let min_effective_level := level in
    let min_effective_level :=
      match console_level_override with
      | Some c => Z.min min_effective_level c
      | None => min_effective_level
      end in
    let min_effective_level :=
      if file_wanted then Z.min min_effective_level LOG_LEVEL_VERBOSE
      else min_effective_level in
    let actual_console_level :=
      match console_level_override with
      | Some c => c
      | None => level
      end in
    let console_handlers :=
      if (actual_console_level <? LOG_LEVEL_QUIET)%Z then
        [StreamHandler actual_console_level
           (if (actual_console_level =? LOG_LEVEL_USER_INTERACTION)%Z
            then USER_INTERACTION_CONSOLE_FORMAT
            else if (actual_console_level =? LOG_LEVEL_NORMAL)%Z
                 then NORMAL_CONSOLE_FORMAT
                 else DEFAULT_FORMAT)]
      else [] in
    let file_handlers :=
      match log_file with
      | Some path =>
          if negb (path =? "") && file_opens
          then [FileHandler path LOG_LEVEL_VERBOSE DEFAULT_FORMAT]
          else []
      | None => []
      end in
    {| root_level := min_effective_level;
       root_handlers := (console_handlers ++ file_handlers)%list;
       third_party_level :=
         if (actual_console_level <=? LOG_LEVEL_VERBOSE)%Z
         then LOG_LEVEL_NORMAL else WARNING;
       is_initialized := true;
       global_logging_enabled := true |}.

(** ** cli.py *)

(** The choices of [--log-level]. *)
Inductive log_level_choice : Type := quiet | user | normal | verbose.

(** [console_log_level_map]. *)
Definition console_log_level (c : log_level_choice) : Z :=
  match c with
  | quiet => LOG_LEVEL_QUIET
  | user => LOG_LEVEL_USER_INTERACTION
  | normal => LOG_LEVEL_NORMAL
  | verbose => LOG_LEVEL_VERBOSE
  end.

(** Lines 98-133 of [main]: the call of [setup_logging] for the arguments
    [--log-level] and [--no-log-file]. *)
Definition cli_setup_logging (log_level : log_level_choice)
  (no_log_file file_opens : bool) : LoggingState :=
  let chosen_console_level := console_log_level log_level in
  let effective_app_level_for_setup :=
    if no_log_file then chosen_console_level else LOG_LEVEL_VERBOSE in
  let log_file_name :=
    if negb no_log_file then Some "app_client.log" else None in
  setup_logging effective_app_level_for_setup (Some chosen_console_level)
    log_file_name true file_opens.






(** ** Specification-side definitions *)

(** The property entries on which [convert_property] does not raise: an entry
    that is no dict is skipped, a dict needs an absent or string [type]. *)
Definition typed_property (v : pyval) : bool :=
  match v with
  | PDict schema_prop =>
      match dict_get "type" schema_prop with
      | None | Some (PStr _) => true
      | Some _ => false
      end
  | _ => true
  end.

(** The descriptors on which the translator does not raise. *)
Definition translatable (t : Tool) : bool :=
  match inputSchema t with
  | PDict ((_ :: _) as schema) =>
      match dict_get "properties" schema with
      | None => true
      | Some (PDict props) => forallb (fun kv => typed_property (snd kv)) props
      | Some _ => false
      end
  | _ => true
  end.

(** Whether a session lists a tool of that name on an occasion; the listing
    may raise. *)
Definition declares (occ : occasion) (tool_name : string)
  (sess : ClientSession) : result bool :=
  service_tools <- list_tools sess occ ;;
  Ok (existsb (fun t => name t =? tool_name) service_tools).

(** The registry of the specification: the service of the first name, in
    the order of the workflow, whose session declares the tool. *)
Fixpoint first_declaring (connect : string -> result ClientSession)
  (occ : occasion) (tool_name : string) (names : list string)
  : result (option MCPService) :=
  match names with
  | [] => Ok None
  | sname :: rest =>
      match connect sname with
      | Ok sess =>
          declared_here <- declares occ tool_name sess ;;
          if declared_here
          then Ok (Some {| server_name := sname; session := sess |})
          else first_declaring connect occ tool_name rest
      | Raise _ => first_declaring connect occ tool_name rest
      end
  end.

(** The services of a registry are the ones [connect] gives their names. *)
Definition canonical (connect : string -> result ClientSession)
  (services : list (string * MCPService)) : Prop :=
  forall k s, In (k, s) services ->
    server_name s = k /\ connect k = Ok (session s).

(** The Parts of a Turn, none when it has no list of Parts. *)
Definition parts_list (c : Content) : list Part :=
  match parts c with
  | Some ps => ps
  | None => []
  end.

(** The non-blank text of the Parts, in Part order. *)
Definition nonblank_texts (ps : list Part) : list string :=
  flat_map
    (fun p =>
       match text p with
       | Some t => if negb (t =? "") && negb (strip t =? "") then [t] else []
       | None => []
       end) ps.

Definition has_function_call (ps : list Part) : bool :=
  existsb
    (fun p => match function_call p with Some _ => true | None => false end)
    ps.

(** [fc] is the first function call of the Parts. *)
Definition first_function_call (ps : list Part) (fc : FunctionCall) : Prop :=
  exists before p after,
    ps = (before ++ p :: after)%list
    /\ has_function_call before = false
    /\ function_call p = Some fc.

Definition last_opt {A : Type} (l : list A) : option A :=
  last (map Some l) None.

(** The Parts of the first candidate of a response, when it has a content
    with a list of Parts. *)
Definition first_parts (resp : GenerateContentResponse) : option (list Part) :=
  match candidates resp with
  | cand :: _ =>
      match content cand with
      | Some c => parts c
      | None => None
      end
  | [] => None
  end.

(** A gateway outcome that asks for a tool: a first candidate with a
    function call. *)
Definition continues (r : result GenerateContentResponse) : bool :=
  match r with
  | Ok resp =>
      match first_parts resp with
      | Some ps => has_function_call ps
      | None => false
      end
  | Raise _ => false
  end.

(** A gateway outcome whose first candidate has no content, or a content
    without a list of Parts. *)
Definition malformed (r : result GenerateContentResponse) : bool :=
  match r with
  | Ok resp =>
      match candidates resp with
      | _ :: _ =>
          match first_parts resp with
          | Some _ => false
          | None => true
          end
      | [] => false
      end
  | Raise _ => false
  end.

(** The answer buffer when the loop is left by [break] on the gateway
    outcome [r], the buffer being empty before. *)
Definition break_parts (wname : string) (r : result GenerateContentResponse)
  : list string :=
  match r with
  | Raise e => [String "010" ("[" ++ llm_error_message wname e ++ "]")]
  | Ok resp =>
      match candidates resp with
      | [] => [no_candidates_marker]
      | _ :: _ =>
          match first_parts resp with
          | Some ps => final_turn_parts [] (nonblank_texts ps) resp
          | None => []
          end
      end
  end.

(** The Turns appended when the loop is left on the gateway outcome [r]. *)
Definition break_history (r : result GenerateContentResponse) : list Content :=
  match r with
  | Ok resp =>
      match candidates resp with
      | cand :: _ =>
          match content cand with
          | Some c => [c]
          | None => []
          end
      | [] => []
      end
  | Raise _ => []
  end.


(** The guard of lines 61-63. *)
Definition services_missing (eng : WorkflowEngine) : bool :=
  match mcp_services eng, mcp_servers_used (workflow_config eng) with
  | [], _ :: _ => true
  | _, _ => false
  end.

Definition brace_free (s : string) : bool :=
  string_forall (fun c => negb ((c =? "{") || (c =? "}"))%char) s.

(** A function call is made in a Turn. *)
Definition calls_tool (nm : string) (c : Content) : Prop :=
  exists p fc,
    In p (parts_list c) /\ function_call p = Some fc /\ fc_name fc = nm.

(** Every Turn with a function response comes after a model Turn with a
    call of the same name. *)
Definition responses_preceded (h : list Content) : Prop :=
  forall i c p fr,
    nth_error h i = Some c -> In p (parts_list c) ->
    function_response p = Some fr ->
    exists j m,
      j < i /\ nth_error h j = Some m /\ role m = "model"
      /\ calls_tool (fr_name fr) m.

(** The gateway answers with model Turns that carry no function response. *)
Definition model_turns_only
  (generate_response :
     nat -> list Content -> option GenerateContentConfig ->
     result GenerateContentResponse) : Prop :=
  forall turn h cfg resp cand rest c,
    generate_response turn h cfg = Ok resp ->
    candidates resp = cand :: rest ->
    content cand = Some c ->
    role c = "model"
    /\ forall p, In p (parts_list c) -> function_response p = None.

(** The description of the declaration of a tool. *)
Definition described (t : Tool) : string :=
  match description t with
  | PStr s => if strip s =? "" then default_description (name t) else s
  | _ => default_description (name t)
  end.

(** The [required] entry of the parameters of a declaration. *)
Definition required_entry (schema : dict) : dict :=
  match dict_get "required" schema with
  | Some (PList ((_ :: _) as l)) =>
      if all_str l then [("required", PList l)] else []
  | _ => []
  end.

(** The kind a property type is translated to. *)
Definition translated_type (schema_prop : dict) : string :=
  match dict_get "type" schema_prop with
  | Some (PStr s) =>
      if existsb (String.eqb (lower s)) valid_types then lower s else "string"
  | _ => "string"
  end.

(** The name of a declaration. *)
Definition declaration_name (decl : pyval) : option string :=
  match decl with
  | PDict d =>
      match dict_get "name" d with
      | Some (PStr n) => Some n
      | _ => None
      end
  | _ => None
  end.

(** The properties of a declaration. *)
Definition declaration_properties (decl : pyval) : option dict :=
  match decl with
  | PDict d =>
      match dict_get "parameters" d with
      | Some (PDict ps) =>
          match dict_get "properties" ps with
          | Some (PDict props) => Some props
          | _ => None
          end
      | _ => None
      end
  | _ => None
  end.

(** The tools [prepare_tools_for_llm] declares. *)
Definition declared (t : Tool) : bool :=
  negb (name t =? "") && translatable t.

(** The [required] list of a declaration. *)
Definition declaration_required (decl : pyval) : option pyval :=
  match decl with
  | PDict d =>
      match dict_get "parameters" d with
      | Some (PDict ps) => dict_get "required" ps
      | _ => None
      end
  | _ => None
  end.

(** A tool with an unknown property type, a malformed property and a
    description of blanks, one of them a no-break space. *)
Definition sloppy_tool : Tool :=
  {| name := "search";
     description := PStr (String "160" "  ");
     inputSchema :=
       PDict [("properties",
               PDict [("q", PDict [("type", PStr "Text")]);
                      ("limit", PStr "integer");
                      ("tags", PDict [("type", PStr "ARRAY")])]);
              ("required", PList [PStr "q"; PInt 1])] |}.

(** The tools a server adds to the engine during the setup. *)
Definition setup_tools (connect : string -> result ClientSession)
  (sname : string) : list Tool :=
  match connect sname with
  | Ok sess =>
      match list_tools sess AtSetup with
      | Ok ts => ts
      | Raise _ => []
      end
  | Raise _ => []
  end.

(** The Turns [suffix] that a run of the turn loop appends for the gateway
    outcomes [new], the first of them at turn [turn]: the Turn of the model
    of the outcome of index [i] is at index [2 * i], and the response to its
    first function call right after it, unless the run ends at that outcome
    ([complete] says it ends by running out of budget). *)
Definition alternates (format_exc : exn -> string) (eng : WorkflowEngine)
  (turn : nat) (complete : Prop) (suffix : list Content)
  (new : list (result GenerateContentResponse)) : Prop :=
  length suffix <= 2 * length new
  /\ (forall i resp cand rest c,
        nth_error new i = Some (Ok resp) ->
        candidates resp = cand :: rest ->
        content cand = Some c ->
        nth_error suffix (2 * i) = Some c)
  /\ (forall i r,
        nth_error new i = Some r ->
        continues r = true ->
        S i < length new \/ complete ->
        exists resp ps fc payload,
          r = Ok resp
          /\ first_parts resp = Some ps
          /\ first_function_call ps fc
          /\ tool_result_for_llm format_exc eng (turn + i) fc = Ok payload
          /\ nth_error suffix (2 * i + 1) =
             Some {| parts :=
                       Some [from_function_response (fc_name fc) payload];
                     role := "user" |}).

(** The user Turn that opens a conversation. *)
Definition prompt_turn (initial_prompt : string) : Content :=
  {| parts := Some [text_part initial_prompt]; role := "user" |}.



(** * Proofs *)

Ltac splits := repeat match goal with |- _ /\ _ => split end.

(** ** Strings *)

Lemma rstrip_snoc (s : string) (c : ascii) :
  is_space c = false -> rstrip (s ++ String c "") = s ++ String c "".
Proof.
  intros Hc. induction s as [|a s IH]; simpl.
  - now rewrite Hc.
  - rewrite IH. destruct s; reflexivity.
Qed.

Lemma strip_marker (m : string) :
  strip (String "010" ("[" ++ m ++ "]")) = "[" ++ m ++ "]".
Proof.
  unfold strip. simpl lstrip.
  change (String "[" (m ++ "]")) with (String "[" m ++ "]").
  now apply rstrip_snoc.
Qed.

Lemma join_single (s : string) : join [s] = s.
Proof. reflexivity. Qed.

(** ** The schema translator *)

Lemma convert_property_typed (schema_prop : dict) :
  typed_property (PDict schema_prop) = true ->
  exists d, convert_property schema_prop = Ok d.
Proof.
  unfold typed_property, convert_property.
  destruct (dict_get "type" schema_prop) as [[]|]; intros H;
    try discriminate; simpl; eexists; reflexivity.
Qed.

Lemma convert_property_untyped (schema_prop : dict) :
  typed_property (PDict schema_prop) = false ->
  exists v, convert_property schema_prop = Raise (AttributeError v "lower").
Proof.
  unfold typed_property, convert_property.
  destruct (dict_get "type" schema_prop) as [[]|]; intros H;
    try discriminate; simpl; eexists; reflexivity.
Qed.

Lemma convert_properties_typed (props : dict) :
  forall acc,
  forallb (fun kv => typed_property (snd kv)) props = true ->
  exists d, convert_properties props acc = Ok d.
Proof.
  induction props as [|[k v] props IH]; intros acc H; simpl in *.
  - now exists acc.
  - apply andb_true_iff in H as [Hv Hrest].
    destruct v; try (now apply IH).
    destruct (convert_property_typed _ Hv) as [cur ->]. simpl. now apply IH.
Qed.

Lemma convert_properties_untyped (props : dict) :
  forall acc,
  forallb (fun kv => typed_property (snd kv)) props = false ->
  exists v, convert_properties props acc = Raise (AttributeError v "lower").
Proof.
  induction props as [|[k v] props IH]; intros acc H; simpl in *.
  - discriminate.
  - apply andb_false_iff in H.
    destruct (typed_property v) eqn:Hv.
    + destruct H as [H|H]; [discriminate|].
      destruct v; try (now apply IH).
      destruct (convert_property_typed _ Hv) as [cur ->]. simpl. now apply IH.
    + destruct v; try discriminate.
      destruct (convert_property_untyped _ Hv) as [w ->]. now exists w.
Qed.

Lemma description_cases (t : Tool) :
  exists d, d <> "" /\
    match description t with
    | PStr s =>
        if (s =? "") || (strip s =? "")
        then PStr (default_description (name t)) else PStr s
    | _ => PStr (default_description (name t))
    end = PStr d.
Proof.
  assert (Hdef : default_description (name t) <> "") by discriminate.
  destruct (description t); try (eexists; split; [exact Hdef|reflexivity]).
  destruct (s =? "") eqn:Hs; simpl.
  - eexists; split; [exact Hdef|reflexivity].
  - destruct (strip s =? "").
    + eexists; split; [exact Hdef|reflexivity].
    + exists s. split; [|reflexivity]. intros ->. discriminate.
Qed.

Lemma convert_translatable (t : Tool) :
  translatable t = true ->
  exists d ps, d <> "" /\
    _convert_mcp_tool_to_genai_function t =
    Ok (PDict [("name", PStr (name t)); ("description", PStr d);
               ("parameters", PDict ps)]).
Proof.
  intros Ht. destruct (description_cases t) as (d & Hd & Hdesc).
  exists d. unfold _convert_mcp_tool_to_genai_function, translatable in *.
  rewrite Hdesc.
  destruct (inputSchema t) as [| | | | | |schema|];
    try (eexists; split; [exact Hd|reflexivity]).
  destruct schema as [|entry schema]; [eexists; split; [exact Hd|reflexivity]|].
  destruct (dict_get "properties" (entry :: schema)) as [props|].
  - destruct props; try discriminate.
    cbn [bind]. destruct (convert_properties_typed d0 [] Ht) as [gp ->].
    cbn [bind]. eexists. split; [exact Hd|reflexivity].
  - cbn [bind convert_properties]. eexists. split; [exact Hd|reflexivity].
Qed.

Lemma convert_untranslatable (t : Tool) :
  translatable t = false ->
  exists v attr,
    _convert_mcp_tool_to_genai_function t = Raise (AttributeError v attr).
Proof.
  intros Ht. unfold _convert_mcp_tool_to_genai_function, translatable in *.
  destruct (inputSchema t) as [| | | | | |schema|]; try discriminate.
  destruct schema as [|entry schema]; [discriminate|].
  destruct (dict_get "properties" (entry :: schema)) as [props|];
    [|discriminate].
  destruct props; try (do 2 eexists; reflexivity).
  cbn [bind]. destruct (convert_properties_untyped d [] Ht) as [v ->].
  do 2 eexists; reflexivity.
Qed.

(** C6, amended.  The translator returns a declaration, with a description
    that is not empty, on every descriptor whose property types are strings
    (or absent) and whose [properties] entry is a mapping (or absent).  On
    any other descriptor it raises [AttributeError]; [prepare_tools_for_llm]
    catches it and leaves the tool out of the declarations. *)
Theorem translator_total_on_typed_schemas (t : Tool) (rest : list Tool) :
  (translatable t = true ->
   exists d ps, d <> "" /\
     _convert_mcp_tool_to_genai_function t =
     Ok (PDict [("name", PStr (name t)); ("description", PStr d);
                ("parameters", PDict ps)]))
  /\
  (translatable t = false ->
   (exists v attr,
      _convert_mcp_tool_to_genai_function t = Raise (AttributeError v attr))
   /\ convert_all (t :: rest) = convert_all rest).
Proof.
  split; [apply convert_translatable|].
  intros Ht. destruct (convert_untranslatable t Ht) as (v & attr & Hr).
  split; [now exists v, attr|].
  simpl. rewrite Hr. now destruct (name t =? "").
Qed.

(** The translator on the descriptor of [get_weather]. *)
Lemma translator_total_on_typed_schemas_witness :
  exists d ps, d <> "" /\
    _convert_mcp_tool_to_genai_function get_weather =
    Ok (PDict [("name", PStr (name get_weather)); ("description", PStr d);
               ("parameters", PDict ps)]).
Proof.
  apply (proj1 (translator_total_on_typed_schemas get_weather [])).
  reflexivity.
Defined.

(** C6 as stated fails: a property whose type is a list of kinds makes the
    translator raise. *)
Lemma translator_raises_on_list_type :
  _convert_mcp_tool_to_genai_function nullable_tool =
  Raise (AttributeError (PList [PStr "string"; PStr "null"]) "lower").
Proof. reflexivity. Qed.

(** C7: for an array property, an absent [items] entry is replaced by
    [{type: "string"}], but an [items] entry that is no object is passed
    through as it is, where the claim (and the log message of the code)
    says it is replaced as well. *)
Theorem array_items_malformed_kept :
  convert_property [("type", PStr "array")] =
    Ok [("type", PStr "array"); ("items", PDict [("type", PStr "string")])]
  /\ convert_property [("type", PStr "array"); ("items", PStr "string")] =
    Ok [("type", PStr "array"); ("items", PStr "string")]
  /\ _convert_mcp_tool_to_genai_function tags_tool =
    Ok (PDict
          [("name", PStr "add_tags");
           ("description", PStr "Tag a note");
           ("parameters",
            PDict [("type", PStr "object");
                   ("properties",
                    PDict [("tags",
                            PDict [("type", PStr "array");
                                   ("items", PStr "string")])])])]).
Proof. splits; reflexivity. Qed.

(** ** Tool-name resolution *)

Section Resolution.

Variable connect : string -> result ClientSession.
Variable occ : occasion.

Lemma canonical_nil : canonical connect [].
Proof. intros k s []. Qed.

Lemma in_dict_set (k : string) (v : MCPService) (d : list (string * MCPService)) :
  forall k' v', In (k', v') (dict_set k v d) ->
    (k', v') = (k, v) \/ In (k', v') d.
Proof.
  induction d as [|[k0 v0] d IH]; simpl; intros k' v' H.
  - destruct H as [H|[]]. now left.
  - destruct (k0 =? k).
    + destruct H as [H|H]; [now left|now right; right].
    + destruct H as [H|H]; [now right; left|].
      destruct (IH _ _ H); [now left|now right; right].
Qed.

Lemma canonical_dict_set (sname : string) (sess : ClientSession)
  (d : list (string * MCPService)) :
  connect sname = Ok sess -> canonical connect d ->
  canonical connect
    (dict_set sname {| server_name := sname; session := sess |} d).
Proof.
  intros Hc Hd k s Hin. apply in_dict_set in Hin as [Heq|Hin].
  - inversion Heq; subst. now split.
  - now apply Hd.
Qed.

Lemma find_service_cons (tool_name k : string) (service : MCPService)
  (d : list (string * MCPService)) :
  find_service occ tool_name ((k, service) :: d) =
  match declares occ tool_name (session service) with
  | Ok true => Ok (Some service)
  | Ok false => find_service occ tool_name d
  | Raise e => Raise e
  end.
Proof.
  cbn [find_service]. unfold get_tools, declares.
  destruct (list_tools (session service) occ) as [ts|e]; cbn [bind];
    [|reflexivity].
  now destruct (existsb _ ts).
Qed.

(** Registering a service leaves the resolution of the earlier ones as it
    was; the new service answers only for names none of them declares. *)
Lemma find_service_dict_set (tool_name sname : string) (sess : ClientSession)
  (d : list (string * MCPService)) :
  connect sname = Ok sess -> canonical connect d ->
  find_service occ tool_name
    (dict_set sname {| server_name := sname; session := sess |} d) =
  match find_service occ tool_name d with
  | Ok None =>
      match declares occ tool_name sess with
      | Ok true => Ok (Some {| server_name := sname; session := sess |})
      | Ok false => Ok None
      | Raise e => Raise e
      end
  | found => found
  end.
Proof.
  intros Hc. induction d as [|[k0 v0] d IH]; intros Hd.
  - cbn [dict_set]. rewrite find_service_cons. cbn [session find_service].
    now destruct (declares occ tool_name sess) as [[]|].
  - assert (Hd' : canonical connect d).
    { intros k s Hin. apply Hd. now right. }
    cbn [dict_set]. destruct (k0 =? sname) eqn:Hk.
    + apply String.eqb_eq in Hk. subst k0.
      destruct (Hd sname v0 (or_introl eq_refl)) as [Hn Hs].
      assert (Hv : v0 = {| server_name := sname; session := sess |}).
      { destruct v0 as [n0 s0]. simpl in *. subst n0.
        rewrite Hc in Hs. now inversion Hs. }
      subst v0. rewrite !find_service_cons. cbn [session].
      destruct (declares occ tool_name sess) as [[]|]; try reflexivity.
      now destruct (find_service occ tool_name d) as [[]|].
    + rewrite !find_service_cons.
      destruct (declares occ tool_name (session v0)) as [[]|];
        try reflexivity.
      now apply IH.
Qed.

Lemma setup_loop_resolution (tool_name : string) (names : list string) :
  forall eng eng',
  setup_loop connect names eng = (eng', Ok tt) ->
  canonical connect (mcp_services eng) ->
  find_service occ tool_name (mcp_services eng') =
  match find_service occ tool_name (mcp_services eng) with
  | Ok None => first_declaring connect occ tool_name names
  | found => found
  end.
Proof.
  induction names as [|sname names IH]; intros eng eng' Hrun Hcan;
    cbn [setup_loop first_declaring] in *.
  - inversion Hrun; subst. now destruct (find_service _ _ _) as [[]|].
  - destruct (connect sname) as [sess|e] eqn:Hc; [|discriminate].
    destruct (get_tools {| server_name := sname; session := sess |} AtSetup)
      as [ts|e]; [|discriminate].
    rewrite (IH _ _ Hrun); cbn [mcp_services].
    + rewrite (find_service_dict_set _ _ _ _ Hc Hcan).
      destruct (find_service occ tool_name (mcp_services eng)) as [[s|]|e];
        try reflexivity.
      now destruct (declares occ tool_name sess) as [[]|].
    + now apply canonical_dict_set.
Qed.



End Resolution.

Lemma setup_services_resolution (connect : string -> result ClientSession)
  (occ : occasion) (wname : string) (cfg : WorkflowConfig)
  (eng' : WorkflowEngine) (tool_name : string) :
  setup_services connect (new_engine wname cfg) = (eng', Ok tt) ->
  find_service occ tool_name (mcp_services eng') =
  first_declaring connect occ tool_name (mcp_servers_used cfg).
Proof.
  intros Hrun. unfold setup_services in Hrun.
  rewrite (setup_loop_resolution connect occ tool_name _ _ _ Hrun).
  - reflexivity.
  - apply canonical_nil.
Qed.



(** ** The scan of the Parts *)

Lemma scan_parts_no_call (ps : list Part) :
  forall acc, has_function_call ps = false ->
  scan_parts ps acc = ((acc ++ nonblank_texts ps)%list, None).
Proof.
  induction ps as [|p ps IH]; intros acc H; simpl in *.
  - now rewrite app_nil_r.
  - destruct (function_call p); [discriminate|]. simpl in H.
    rewrite (IH _ H).
    destruct (text p) as [t|]; [|reflexivity].
    destruct (negb (t =? "") && negb (strip t =? "")); simpl.
    + now rewrite <- app_assoc.
    + reflexivity.
Qed.

Lemma scan_parts_call (ps : list Part) :
  forall acc, has_function_call ps = true ->
  exists texts fc,
    scan_parts ps acc = (texts, Some fc) /\ first_function_call ps fc.
Proof.
  induction ps as [|p ps IH]; intros acc H; simpl in *; [discriminate|].
  destruct (function_call p) as [fc|] eqn:Hp.
  - do 2 eexists. split; [reflexivity|].
    exists [], p, ps. now repeat split.
  - simpl in H. destruct (IH
      (match text p with
       | Some t =>
           if negb (t =? "") && negb (strip t =? "")
           then (acc ++ [t])%list else acc
       | None => acc
       end) H) as (texts & fc & Hs & before & q & after & Hps & Hb & Hq).
    exists texts, fc. split; [exact Hs|].
    exists (p :: before), q, after. repeat split.
    + now rewrite Hps.
    + simpl. now rewrite Hp.
    + exact Hq.
Qed.

Lemma first_function_call_unique (ps : list Part) :
  forall fc fc', first_function_call ps fc -> first_function_call ps fc' ->
  fc = fc'.
Proof.
  induction ps as [|p ps IH];
    intros fc fc' (b & q & a & Hps & Hb & Hq) (b' & q' & a' & Hps' & Hb' & Hq').
  - now destruct b.
  - destruct b as [|x b], b' as [|x' b']; simpl in *;
      inversion Hps; inversion Hps'; subst.
    + congruence.
    + rewrite Hq in Hb'. discriminate.
    + rewrite Hq' in Hb. discriminate.
    + apply orb_false_iff in Hb as [_ Hb].
      apply orb_false_iff in Hb' as [_ Hb'].
      apply IH; [now exists b, q, a|now exists b', q', a'].
Qed.

Lemma first_function_call_has (ps : list Part) (fc : FunctionCall) :
  first_function_call ps fc -> has_function_call ps = true.
Proof.
  intros (b & q & a & -> & _ & Hq). unfold has_function_call.
  rewrite existsb_app. simpl. rewrite Hq. now rewrite orb_true_r.
Qed.

Lemma scan_parts_first (ps : list Part) (fc : FunctionCall) :
  first_function_call ps fc ->
  exists texts, scan_parts ps [] = (texts, Some fc).
Proof.
  intros H.
  destruct (scan_parts_call ps [] (first_function_call_has _ _ H))
    as (texts & fc' & Hs & H').
  exists texts. now rewrite (first_function_call_unique _ _ _ H H').
Qed.

Lemma first_function_call_calls (ps : list Part) (fc : FunctionCall) (r : string) :
  first_function_call ps fc ->
  calls_tool (fc_name fc) {| parts := Some ps; role := r |}.
Proof.
  intros (b & q & a & -> & _ & Hq). exists q, fc. simpl.
  repeat split; auto. apply in_or_app. right. now left.
Qed.

Lemma nonblank_texts_any (ps : list Part) :
  nonblank_texts ps <> [] -> any_nonblank (nonblank_texts ps) = true.
Proof.
  induction ps as [|p ps IH]; simpl; [congruence|].
  unfold any_nonblank in *. rewrite existsb_app.
  destruct (text p) as [t|]; simpl; [|exact IH].
  destruct (t =? ""); simpl; [exact IH|].
  destruct (strip t =? "") eqn:Hs; simpl; [exact IH|].
  intros _. now rewrite Hs.
Qed.

(** ** The turn loop *)

Lemma last_opt_snoc {A : Type} (l : list A) (x : A) :
  last_opt (l ++ [x]) = Some x.
Proof. unfold last_opt. rewrite map_app. apply last_last. Qed.

Lemma continues_inv (r : result GenerateContentResponse) :
  continues r = true ->
  exists resp cand rest c ps fc,
    r = Ok resp /\ candidates resp = cand :: rest
    /\ content cand = Some c /\ parts c = Some ps
    /\ first_function_call ps fc.
Proof.
  destruct r as [resp|e]; simpl; [|discriminate]. unfold first_parts.
  destruct (candidates resp) as [|cand rest] eqn:Hc; [discriminate|].
  destruct (content cand) as [c|] eqn:Hcc; [|discriminate].
  destruct (parts c) as [ps|] eqn:Hps; [|discriminate].
  intros H. destruct (scan_parts_call _ [] H) as (texts & fc & _ & Hfc).
  now exists resp, cand, rest, c, ps, fc.
Qed.

Lemma continues_not_malformed (r : result GenerateContentResponse) :
  continues r = true -> malformed r = false.
Proof.
  destruct r as [resp|e]; simpl; [|reflexivity]. unfold first_parts.
  destruct (candidates resp) as [|cand rest]; [reflexivity|].
  destruct (content cand) as [c|]; [|discriminate].
  now destruct (parts c).
Qed.

Section Loop.

Variable generate_response :
  nat -> list Content -> option GenerateContentConfig ->
  result GenerateContentResponse.
Variable format_exc : exn -> string.
Variable eng : WorkflowEngine.
Variable llm_tool_config : option GenerateContentConfig.

Local Abbreviation body := (turn_body generate_response format_exc eng llm_tool_config).
Local Abbreviation loop := (turn_loop generate_response format_exc eng llm_tool_config).

Lemma turn_body_continue (turn : nat) (st : LoopState)
  (resp : GenerateContentResponse) (cand : Candidate) (rest : list Candidate)
  (c : Content) (ps : list Part) (fc : FunctionCall) (payload : dict) :
  generate_response turn (conversation_history st) llm_tool_config = Ok resp ->
  candidates resp = cand :: rest ->
  content cand = Some c ->
  parts c = Some ps ->
  first_function_call ps fc ->
  tool_result_for_llm format_exc eng turn fc = Ok payload ->
  body turn st =
  (Continue,
   {| conversation_history :=
        (conversation_history st
         ++ [c; {| parts := Some [from_function_response (fc_name fc) payload];
                   role := "user" |}])%list;
      final_response_parts := final_response_parts st;
      llm_log := (llm_log st ++ [Ok resp])%list |}).
Proof.
  intros Hr Hc Hcc Hps Hfc Hp. unfold turn_body. rewrite Hr, Hc, Hcc, Hps.
  destruct (scan_parts_first _ _ Hfc) as [texts ->].
  unfold tool_response_content. rewrite Hp. cbn [bind].
  now rewrite <- app_assoc.
Qed.

Lemma turn_body_listing_fails (turn : nat) (st : LoopState)
  (resp : GenerateContentResponse) (cand : Candidate) (rest : list Candidate)
  (c : Content) (ps : list Part) (fc : FunctionCall) (e : exn) :
  generate_response turn (conversation_history st) llm_tool_config = Ok resp ->
  candidates resp = cand :: rest ->
  content cand = Some c ->
  parts c = Some ps ->
  first_function_call ps fc ->
  tool_result_for_llm format_exc eng turn fc = Raise e ->
  body turn st =
  (Abort e,
   {| conversation_history := (conversation_history st ++ [c])%list;
      final_response_parts := final_response_parts st;
      llm_log := (llm_log st ++ [Ok resp])%list |}).
Proof.
  intros Hr Hc Hcc Hps Hfc Hp. unfold turn_body. rewrite Hr, Hc, Hcc, Hps.
  destruct (scan_parts_first _ _ Hfc) as [texts ->].
  unfold tool_response_content. now rewrite Hp.
Qed.

Lemma turn_body_break (turn : nat) (st : LoopState) :
  let r := generate_response turn (conversation_history st) llm_tool_config in
  continues r = false ->
  malformed r = false ->
  final_response_parts st = [] ->
  body turn st =
  (Break,
   {| conversation_history := (conversation_history st ++ break_history r)%list;
      final_response_parts := break_parts (workflow_name eng) r;
      llm_log := (llm_log st ++ [r])%list |}).
Proof.
  intros r Hr Hm Hf. unfold turn_body. fold r. rewrite Hf.
  destruct r as [resp|e]; simpl in *.
  - unfold first_parts in *. destruct (candidates resp) as [|cand rest].
    + now rewrite app_nil_r.
    + destruct (content cand) as [c|]; [|discriminate].
      destruct (parts c) as [ps|]; [|discriminate].
      now rewrite (scan_parts_no_call _ [] Hr).
  - now rewrite app_nil_r.
Qed.

Lemma turn_body_malformed (turn : nat) (st : LoopState) :
  let r := generate_response turn (conversation_history st) llm_tool_config in
  malformed r = true ->
  exists e,
    body turn st =
    (Abort e,
     {| conversation_history :=
          (conversation_history st ++ break_history r)%list;
        final_response_parts := final_response_parts st;
        llm_log := (llm_log st ++ [r])%list |})
    /\ (exn_type e = "AttributeError" \/ exn_type e = "TypeError").
Proof.
  intros r Hm. unfold turn_body. fold r.
  destruct r as [resp|e]; simpl in *; [|discriminate].
  unfold first_parts in *. destruct (candidates resp) as [|cand rest];
    [discriminate|].
  destruct (content cand) as [c|].
  - destruct (parts c) as [ps|]; [discriminate|].
    eexists. split; [reflexivity|now right].
  - eexists. rewrite app_nil_r. split; [reflexivity|now left].
Qed.

(** What a turn does, by the outcome of the gateway. *)
Lemma turn_body_cases (turn : nat) (st : LoopState) :
  final_response_parts st = [] ->
  let r := generate_response turn (conversation_history st) llm_tool_config in
  exists c st',
    body turn st = (c, st')
    /\ llm_log st' = (llm_log st ++ [r])%list
    /\ match c with
       | Continue => continues r = true /\ final_response_parts st' = []
       | Break =>
           continues r = false /\ malformed r = false
           /\ final_response_parts st' = break_parts (workflow_name eng) r
       | Abort _ => malformed r = true \/ continues r = true
       end.
Proof.
  intros Hf r. destruct (continues r) eqn:Hc.
  - destruct (continues_inv _ Hc)
      as (resp & cand & rest & c & ps & fc & Hr & Hcs & Hcc & Hps & Hfc).
    destruct (tool_result_for_llm format_exc eng turn fc) as [payload|e] eqn:Hp.
    + rewrite (turn_body_continue _ _ _ _ _ _ _ _ _ Hr Hcs Hcc Hps Hfc Hp).
      do 2 eexists. split; [reflexivity|]. cbn. fold r. rewrite Hr.
      now splits.
    + rewrite (turn_body_listing_fails _ _ _ _ _ _ _ _ _ Hr Hcs Hcc Hps Hfc Hp).
      do 2 eexists. split; [reflexivity|]. cbn. fold r. rewrite Hr.
      split; [reflexivity|now right].
  - destruct (malformed r) eqn:Hm.
    + destruct (turn_body_malformed turn st Hm) as (e & -> & _).
      do 2 eexists. split; [reflexivity|]. cbn. split; [reflexivity|now left].
    + rewrite (turn_body_break turn st Hc Hm Hf).
      do 2 eexists. split; [reflexivity|]. cbn. now splits.
Qed.

(** The shape of a run of the loop that starts with an empty answer
    buffer. *)
Lemma turn_loop_shape (n : nat) :
  forall turn st c st',
  final_response_parts st = [] ->
  loop n turn st = (c, st') ->
  match c with
  | Continue =>
      final_response_parts st' = []
      /\ exists calls,
           llm_log st' = (llm_log st ++ calls)%list
           /\ length calls = n
           /\ Forall (fun r => continues r = true) calls
  | Break =>
      exists calls r,
        llm_log st' = (llm_log st ++ calls ++ [r])%list
        /\ length calls < n
        /\ Forall (fun r => continues r = true) calls
        /\ continues r = false
        /\ malformed r = false
        /\ final_response_parts st' = break_parts (workflow_name eng) r
  | Abort _ =>
      exists calls r,
        llm_log st' = (llm_log st ++ calls ++ [r])%list
        /\ length calls < n
        /\ Forall (fun r => continues r = true) calls
        /\ (malformed r = true \/ continues r = true)
  end.
Proof.
  induction n as [|n IH]; intros turn st c st' Hf Hrun; cbn [turn_loop] in Hrun.
  - inversion Hrun; subst. split; [exact Hf|].
    exists []. now rewrite app_nil_r.
  - destruct (turn_body_cases turn st Hf) as (c1 & st1 & Hb & Hlog & Hc1).
    rewrite Hb in Hrun. destruct c1 as [| |e1].
    + destruct Hc1 as [Hcont Hf1]. apply IH in Hrun; [|exact Hf1].
      rewrite Hlog in Hrun. destruct c as [| |e].
      * destruct Hrun as (Hf' & calls & Hl & Hlen & Hall). split; [exact Hf'|].
        eexists (_ :: calls). rewrite Hl, <- app_assoc.
        splits; [reflexivity|simpl; now rewrite Hlen|now constructor].
      * destruct Hrun as (calls & r & Hl & Hlen & Hall & Hrest).
        eexists (_ :: calls), r. rewrite Hl, <- app_assoc.
        splits; try apply Hrest; [reflexivity|simpl; lia|now constructor].
      * destruct Hrun as (calls & r & Hl & Hlen & Hall & Hrest).
        eexists (_ :: calls), r. rewrite Hl, <- app_assoc.
        splits; [reflexivity|simpl; lia|now constructor|exact Hrest].
    + inversion Hrun; subst c st'. destruct Hc1 as (H1 & H2 & H3).
      eexists [], _. splits; [exact Hlog|simpl; lia|constructor| | |];
        assumption.
    + inversion Hrun; subst c st'.
      eexists [], _. splits; [exact Hlog|simpl; lia|constructor|exact Hc1].
Qed.

(** One more turn of budget only adds a last iteration. *)
Lemma turn_loop_snoc (n : nat) :
  forall turn st,
  loop (S n) turn st =
  match loop n turn st with
  | (Continue, st') => body (turn + n) st'
  | other => other
  end.
Proof.
  induction n as [|n IH]; intros turn st.
  - cbn [turn_loop]. rewrite Nat.add_0_r.
    now destruct (body turn st) as [[] ?].
  - change (loop (S (S n)) turn st) with
      (match body turn st with
       | (Continue, st') => loop (S n) (S turn) st'
       | (c, st') => (c, st')
       end).
    change (loop (S n) turn st) with
      (match body turn st with
       | (Continue, st') => loop n (S turn) st'
       | (c, st') => (c, st')
       end).
    destruct (body turn st) as [[] st1]; try reflexivity.
    rewrite IH. now rewrite Nat.add_succ_r.
Qed.

Lemma turn_body_history (turn : nat) (st : LoopState) :
  exists suffix,
    conversation_history (snd (body turn st)) =
    (conversation_history st ++ suffix)%list.
Proof.
  unfold turn_body.
  destruct (generate_response turn (conversation_history st) llm_tool_config)
    as [resp|e]; simpl.
  - destruct (candidates resp) as [|cand rest]; simpl.
    + exists []. now rewrite app_nil_r.
    + destruct (content cand) as [c|]; simpl;
        [|exists []; now rewrite app_nil_r].
      destruct (parts c) as [ps|]; simpl; [|now eexists].
      destruct (scan_parts ps []) as [texts [fc|]]; simpl; [|now eexists].
      destruct (tool_response_content format_exc eng turn fc); simpl.
      * eexists. now rewrite <- app_assoc.
      * now eexists.
  - exists []. now rewrite app_nil_r.
Qed.

End Loop.

(** ** [str.format] *)

Lemma append_snoc (a : string) (c : ascii) (b : string) :
  (a ++ String c "") ++ b = a ++ String c b.
Proof. induction a as [|x a IH]; simpl; [reflexivity|now rewrite IH]. Qed.

Lemma format_scan_brace_free (query : string) (s : string) :
  forall out, brace_free s = true ->
  format_scan s None out query = Formatted (out ++ s).
Proof.
  induction s as [|c s IH]; intros out H; simpl in *.
  - f_equal. induction out as [|x out IHo]; simpl; [reflexivity|].
    now rewrite <- IHo.
  - apply andb_true_iff in H as [Hc Hs].
    apply negb_true_iff, orb_false_iff in Hc as [-> ->].
    rewrite (IH _ Hs). now rewrite append_snoc.
Qed.




(** ** [process_user_query] *)

Lemma last_opt_inv {A : Type} (l : list A) (x : A) :
  last_opt l = Some x -> exists l', l = (l' ++ [x])%list.
Proof.
  destruct l as [|a l] using rev_ind; [discriminate|].
  rewrite last_opt_snoc. intros H; inversion H; subst. now exists l.
Qed.

Section Query.

Variable generate_response :
  nat -> list Content -> option GenerateContentConfig ->
  result GenerateContentResponse.
Variable genai_tool : list pyval -> result GenaiTool.
Variable format_exc : exn -> string.

Local Abbreviation query := (process_user_query generate_response genai_tool format_exc).
Local Abbreviation turns := (run_turns generate_response format_exc).

(** The run of a query that reaches the turn loop. *)
Lemma query_formatted (eng : WorkflowEngine) (user_query prompt : string)
  (cfg : option GenerateContentConfig) :
  services_missing eng = false ->
  format (initial_prompt_template (workflow_config eng)) user_query =
    Formatted prompt ->
  prepare_tools_for_llm genai_tool (all_mcp_tools eng) = Ok cfg ->
  query eng user_query =
  {| answer :=
       match fst (turns eng cfg prompt (Z.to_nat (max_turns eng))) with
       | Abort e => Raised e
       | c =>
           Returned
             (strip (join (after_loop c
                             (final_response_parts
                                (snd (turns eng cfg prompt
                                        (Z.to_nat (max_turns eng))))))))
       end;
     history :=
       conversation_history
         (snd (turns eng cfg prompt (Z.to_nat (max_turns eng))));
     llm_calls :=
       llm_log (snd (turns eng cfg prompt (Z.to_nat (max_turns eng)))) |}.
Proof.
  unfold services_missing, process_user_query. intros Hm Hf Hp.
  destruct (mcp_services eng), (mcp_servers_used (workflow_config eng));
    try discriminate; rewrite Hf, Hp;
    now destruct (run_turns _ _ _ _ _ _) as [[] ?].
Qed.

(** The run of a query whose tool configuration cannot be built. *)
Lemma query_unprepared (eng : WorkflowEngine) (user_query prompt : string)
  (e : exn) :
  services_missing eng = false ->
  format (initial_prompt_template (workflow_config eng)) user_query =
    Formatted prompt ->
  prepare_tools_for_llm genai_tool (all_mcp_tools eng) = Raise e ->
  query eng user_query =
  {| answer := Raised e; history := [prompt_turn prompt]; llm_calls := [] |}.
Proof.
  unfold services_missing, process_user_query. intros Hm Hf Hp.
  destruct (mcp_services eng), (mcp_servers_used (workflow_config eng));
    try discriminate; now rewrite Hf, Hp.
Qed.

(** Either no call was made, or the loop ran. *)
Lemma query_cases (eng : WorkflowEngine) (user_query : string) :
  (llm_calls (query eng user_query) = []
   /\ (history (query eng user_query) = []
       \/ exists prompt, history (query eng user_query) = [prompt_turn prompt])
   /\ forall s, answer (query eng user_query) = Returned s ->
        s = not_initialized_message)
  \/ (services_missing eng = false
      /\ exists prompt cfg,
           format (initial_prompt_template (workflow_config eng)) user_query =
           Formatted prompt
           /\ prepare_tools_for_llm genai_tool (all_mcp_tools eng) = Ok cfg).
Proof.
  destruct (services_missing eng) eqn:Hm.
  { left. unfold services_missing, process_user_query in *.
    destruct (mcp_services eng), (mcp_servers_used (workflow_config eng));
      try discriminate.
    splits; [reflexivity|now left|]. intros x H. now inversion H. }
  destruct (format (initial_prompt_template (workflow_config eng)) user_query)
    as [prompt|e|] eqn:Hf.
  - destruct (prepare_tools_for_llm genai_tool (all_mcp_tools eng))
      as [cfg|e] eqn:Hp.
    + right. split; [reflexivity|]. now exists prompt, cfg.
    + left. rewrite (query_unprepared _ _ _ _ Hm Hf Hp).
      splits; [reflexivity|right; now exists prompt|discriminate].
  - left. unfold services_missing, process_user_query in *.
    destruct (mcp_services eng), (mcp_servers_used (workflow_config eng));
      try discriminate; rewrite Hf;
      (splits; [reflexivity|now left|discriminate]).
  - left. unfold services_missing, process_user_query in *.
    destruct (mcp_services eng), (mcp_servers_used (workflow_config eng));
      try discriminate; rewrite Hf;
      (splits; [reflexivity|now left|discriminate]).
Qed.

(** The three ways a query that reaches the turn loop ends: the budget runs
    out, the loop is left by [break], or an exception leaves the query. *)
Lemma query_run_shape (eng : WorkflowEngine) (user_query prompt : string)
  (cfg : option GenerateContentConfig) :
  services_missing eng = false ->
  format (initial_prompt_template (workflow_config eng)) user_query =
    Formatted prompt ->
  prepare_tools_for_llm genai_tool (all_mcp_tools eng) = Ok cfg ->
  (exists calls,
     llm_calls (query eng user_query) = calls
     /\ length calls = Z.to_nat (max_turns eng)
     /\ Forall (fun r => continues r = true) calls
     /\ answer (query eng user_query) =
        Returned "[Max interaction turns reached. No final text generated.]")
  \/
  (exists calls r,
     llm_calls (query eng user_query) = (calls ++ [r])%list
     /\ length calls < Z.to_nat (max_turns eng)
     /\ Forall (fun r => continues r = true) calls
     /\ continues r = false
     /\ malformed r = false
     /\ answer (query eng user_query) =
        Returned (strip (join (break_parts (workflow_name eng) r))))
  \/
  (exists calls r e,
     llm_calls (query eng user_query) = (calls ++ [r])%list
     /\ length calls < Z.to_nat (max_turns eng)
     /\ Forall (fun r => continues r = true) calls
     /\ (malformed r = true \/ continues r = true)
     /\ answer (query eng user_query) = Raised e).
Proof.
  intros Hm Hf Hp. rewrite (query_formatted _ _ _ _ Hm Hf Hp). simpl.
  destruct (turns eng cfg prompt (Z.to_nat (max_turns eng))) as [c st] eqn:Hrun.
  unfold run_turns in Hrun.
  apply turn_loop_shape in Hrun; [|reflexivity]. simpl in *.
  destruct c as [| |e].
  - left. destruct Hrun as (Hf' & calls & Hlog & Hlen & Hall).
    exists calls. rewrite Hf'. now splits.
  - right. left. destruct Hrun as (calls & r & Hlog & Hlen & Hall & Hr & Hm' & Hf').
    exists calls, r. rewrite Hf'. now splits.
  - right. right. destruct Hrun as (calls & r & Hlog & Hlen & Hall & Hr).
    exists calls, r, e. now splits.
Qed.

(** The answer of a query whose gateway outcome [r] is not a request for a
    tool. *)
Lemma query_last_outcome (eng : WorkflowEngine) (user_query : string)
  (r : result GenerateContentResponse) :
  In r (llm_calls (query eng user_query)) ->
  continues r = false ->
  malformed r = false ->
  answer (query eng user_query) =
  Returned (strip (join (break_parts (workflow_name eng) r))).
Proof.
  intros Hin Hr Hmal.
  destruct (query_cases eng user_query)
    as [(Hnil & _)|(Hm & prompt & cfg & Hf & Hp)].
  { rewrite Hnil in Hin. destruct Hin. }
  destruct (query_run_shape _ _ _ _ Hm Hf Hp)
    as [(calls & Hcalls & _ & Hall & _)
       |[(calls & r' & Hcalls & _ & Hall & _ & _ & Ha)
        |(calls & r' & e & Hcalls & _ & Hall & Hr' & _)]];
    rewrite Forall_forall in Hall.
  - subst calls. rewrite (Hall _ Hin) in Hr. discriminate.
  - rewrite Hcalls in Hin. apply in_app_or in Hin as [Hin|[<-|[]]].
    + rewrite (Hall _ Hin) in Hr. discriminate.
    + exact Ha.
  - rewrite Hcalls in Hin. apply in_app_or in Hin as [Hin|[<-|[]]].
    + rewrite (Hall _ Hin) in Hr. discriminate.
    + destruct Hr'; congruence.
Qed.

End Query.

(** ** The conversation history *)

Lemma responses_preceded_snoc (h : list Content) (c : Content) :
  responses_preceded h ->
  (forall p fr, In p (parts_list c) -> function_response p = Some fr ->
     exists j m,
       j < length h /\ nth_error h j = Some m /\ role m = "model"
       /\ calls_tool (fr_name fr) m) ->
  responses_preceded (h ++ [c]).
Proof.
  intros Hh Hc i x p fr Hi Hp Hfr.
  destruct (Nat.lt_ge_cases i (length h)) as [Hlt|Hge].
  - rewrite nth_error_app1 in Hi by exact Hlt.
    destruct (Hh i x p fr Hi Hp Hfr) as (j & m & Hj & Hm & Hrole & Hcall).
    exists j, m. splits; auto.
    rewrite nth_error_app1 by lia. exact Hm.
  - rewrite nth_error_app2 in Hi by exact Hge.
    destruct (i - length h) as [|k] eqn:Hk; simpl in Hi.
    + inversion Hi; subst x.
      destruct (Hc p fr Hp Hfr) as (j & m & Hj & Hm & Hrole & Hcall).
      exists j, m. splits; auto; [lia|].
      rewrite nth_error_app1 by lia. exact Hm.
    + now destruct k.
Qed.

Lemma responses_preceded_no_response (h : list Content) (c : Content) :
  responses_preceded h ->
  (forall p, In p (parts_list c) -> function_response p = None) ->
  responses_preceded (h ++ [c]).
Proof.
  intros Hh Hc. apply responses_preceded_snoc; [exact Hh|].
  intros p fr Hp Hfr. rewrite (Hc p Hp) in Hfr. discriminate.
Qed.

Section History.

Variable generate_response :
  nat -> list Content -> option GenerateContentConfig ->
  result GenerateContentResponse.
Variable format_exc : exn -> string.
Variable eng : WorkflowEngine.
Variable llm_tool_config : option GenerateContentConfig.
Hypothesis gateway_ok : model_turns_only generate_response.

Local Abbreviation body := (turn_body generate_response format_exc eng llm_tool_config).
Local Abbreviation loop := (turn_loop generate_response format_exc eng llm_tool_config).

Lemma turn_body_preceded (turn : nat) (st : LoopState) :
  responses_preceded (conversation_history st) ->
  responses_preceded (conversation_history (snd (body turn st))).
Proof.
  intros Hst. unfold turn_body.
  destruct (generate_response turn (conversation_history st) llm_tool_config)
    as [resp|e] eqn:Hr; simpl; [|exact Hst].
  destruct (candidates resp) as [|cand rest] eqn:Hc; simpl; [exact Hst|].
  destruct (content cand) as [c|] eqn:Hcc; simpl; [|exact Hst].
  destruct (gateway_ok _ _ _ _ _ _ _ Hr Hc Hcc) as [Hrole Hnone].
  assert (Hmodel : responses_preceded (conversation_history st ++ [c])).
  { now apply responses_preceded_no_response. }
  destruct (parts c) as [ps|] eqn:Hps; simpl; [|exact Hmodel].
  destruct (has_function_call ps) eqn:Hfc.
  - destruct (scan_parts_call _ [] Hfc) as (texts & fc & -> & Hfirst).
    unfold tool_response_content.
    destruct (tool_result_for_llm format_exc eng turn fc) as [payload|e];
      cbn [bind snd conversation_history]; [|exact Hmodel].
    apply responses_preceded_snoc; [exact Hmodel|].
    intros p fr [Hp|[]] Hfr. subst p. simpl in Hfr. inversion Hfr; subst fr.
    exists (length (conversation_history st)), c. simpl.
    splits.
    + rewrite length_app. simpl. lia.
    + rewrite nth_error_app2 by lia. now rewrite Nat.sub_diag.
    + exact Hrole.
    + destruct c as [cps r]. simpl in *. subst cps.
      now apply first_function_call_calls.
  - rewrite (scan_parts_no_call _ [] Hfc). exact Hmodel.
Qed.

Lemma turn_loop_preceded (n : nat) :
  forall turn st,
  responses_preceded (conversation_history st) ->
  responses_preceded (conversation_history (snd (loop n turn st))).
Proof.
  induction n as [|n IH]; intros turn st Hst; cbn [turn_loop]; [exact Hst|].
  pose proof (turn_body_preceded turn st Hst) as Hb.
  destruct (body turn st) as [[] st1]; simpl in *; try exact Hb.
  now apply IH.
Qed.

End History.

Lemma initial_state_preceded (prompt : string) :
  responses_preceded (conversation_history (initial_state prompt)).
Proof.
  intros i c p fr Hi Hp Hfr. destruct i as [|[|i]]; simpl in Hi; try discriminate.
  inversion Hi; subst c. destruct Hp as [<-|[]]. discriminate.
Qed.

(** ** The claims on [process_user_query] *)

Section Claims.

Variable generate_response :
  nat -> list Content -> option GenerateContentConfig ->
  result GenerateContentResponse.
Variable genai_tool : list pyval -> result GenaiTool.
Variable format_exc : exn -> string.

Local Abbreviation query := (process_user_query generate_response genai_tool format_exc).
Local Abbreviation turns := (run_turns generate_response format_exc).
Local Abbreviation body := (turn_body generate_response format_exc).
Local Abbreviation loop := (turn_loop generate_response format_exc).

(** C10.  When the workflow names backend services and none is set up, the
    query makes no LLM call, builds no conversation and returns the fixed
    error string. *)
Theorem uninitialized_services_guard (eng : WorkflowEngine)
  (user_query : string) :
  mcp_services eng = [] ->
  mcp_servers_used (workflow_config eng) <> [] ->
  query eng user_query =
  {| answer := Returned "Error: Workflow services are not initialized.";
     history := [];
     llm_calls := [] |}.
Proof.
  intros Hs Hu. unfold process_user_query. rewrite Hs.
  now destruct (mcp_servers_used (workflow_config eng)).
Qed.

Lemma llm_calls_bound (eng : WorkflowEngine) (user_query : string) :
  length (llm_calls (query eng user_query)) <= Z.to_nat (max_turns eng).
Proof.
  destruct (query_cases generate_response genai_tool format_exc eng user_query)
    as [(-> & _)|(Hm & prompt & cfg & Hf & Hp)]; [simpl; lia|].
  destruct (query_run_shape generate_response genai_tool format_exc
              _ _ _ _ Hm Hf Hp)
    as [(calls & -> & Hlen & _)
       |[(calls & r & -> & Hlen & _)|(calls & r & e & -> & Hlen & _)]].
  - lia.
  - rewrite length_app. simpl. lia.
  - rewrite length_app. simpl. lia.
Qed.

(** The payload answered to a function call, by the outcome of the search
    of a service and of the call of the tool. *)
Lemma tool_result_found (eng : WorkflowEngine) (turn : nat)
  (fc : FunctionCall) (found : option MCPService) :
  find_service (AtTurn turn) (fc_name fc) (mcp_services eng) = Ok found ->
  tool_result_for_llm format_exc eng turn fc =
  Ok match found with
     | Some service =>
         match call_tool service turn (fc_name fc)
                 (match fc_args fc with Some a => a | None => [] end) with
         | Ok (PDict d) => d
         | Ok v => [("output", v)]
         | Raise e =>
             [("error",
               PStr (tool_error_message (fc_name fc) (server_name service) e));
              ("details", PStr (format_exc e))]
         end
     | None =>
         [("error",
           PStr (tool_not_found_message (fc_name fc) (workflow_name eng)))]
     end.
Proof.
  intros Hfound. unfold tool_result_for_llm. rewrite Hfound. cbn [bind].
  destruct found as [service|]; [|reflexivity].
  now destruct (call_tool service turn (fc_name fc) _) as [[]|].
Qed.

(** The first call of the gateway is made on the prompt alone. *)
Lemma query_first_call (eng : WorkflowEngine) (user_query prompt : string)
  (cfg : option GenerateContentConfig) :
  services_missing eng = false ->
  format (initial_prompt_template (workflow_config eng)) user_query =
    Formatted prompt ->
  prepare_tools_for_llm genai_tool (all_mcp_tools eng) = Ok cfg ->
  (0 < max_turns eng)%Z ->
  hd_error (llm_calls (query eng user_query)) =
  Some (generate_response 0 [prompt_turn prompt] cfg).
Proof.
  intros Hm Hf Hp Hpos. rewrite (query_formatted _ _ _ _ _ _ _ Hm Hf Hp).
  cbn [llm_calls]. destruct (Z.to_nat (max_turns eng)) as [|n] eqn:Hn; [lia|].
  unfold run_turns. cbn [turn_loop].
  destruct (turn_body_cases generate_response format_exc eng cfg 0
              (initial_state prompt) eq_refl) as (c & st & Hb & Hlog & _).
  rewrite Hb. cbn [initial_state llm_log conversation_history app] in Hlog.
  destruct c; cbn [snd]; try (now rewrite Hlog).
  destruct (loop eng cfg n 1 st) as [c' st'] eqn:Hrun. cbn [snd].
  assert (Hpre : exists more, llm_log st' = (llm_log st ++ more)%list).
  { destruct (turn_body_cases generate_response format_exc eng cfg 0
                (initial_state prompt) eq_refl) as (c0 & st0 & Hb0 & _ & Hc0).
    rewrite Hb in Hb0. inversion Hb0; subst c0 st0. destruct Hc0 as [_ Hf0].
    apply turn_loop_shape in Hrun; [|exact Hf0]. destruct c'.
    - destruct Hrun as (_ & calls & H & _). now exists calls.
    - destruct Hrun as (calls & r & H & _). eexists. exact H.
    - destruct Hrun as (calls & r & H & _). eexists. exact H. }
  destruct Hpre as [more ->]. now rewrite Hlog.
Qed.

(** C4, amended.  A query makes at most [max_turns] calls of the LLM
    gateway.  With [max_turns = 1], a tool configuration that is built and
    a first response that carries a function call for which the search of a
    service ends: one call is made, the conversation is the prompt, the Turn
    of the model and a user Turn with the function response of the first
    function call (the result of the tool, a mapping as it is and anything
    else under [output]; the error of a failed call; or the error of a tool
    that is not found), and the answer is the max-turns marker.  When a
    service fails to list its tools during that search, the query raises
    the exception of the listing after its one call: no response is
    appended and there is no marker. *)
Theorem at_most_max_turns_llm_calls (eng : WorkflowEngine)
  (user_query : string) :
  (Z.of_nat (length (llm_calls (query eng user_query)))
   <= Z.max 0 (max_turns eng))%Z
  /\
  (forall prompt cfg resp cand rest c ps fc found,
     services_missing eng = false ->
     max_conversation_turns (workflow_config eng) = Some 1%Z ->
     format (initial_prompt_template (workflow_config eng)) user_query =
       Formatted prompt ->
     prepare_tools_for_llm genai_tool (all_mcp_tools eng) = Ok cfg ->
     generate_response 0
       [{| parts := Some [text_part prompt]; role := "user" |}] cfg = Ok resp ->
     candidates resp = cand :: rest ->
     content cand = Some c ->
     parts c = Some ps ->
     first_function_call ps fc ->
     find_service (AtTurn 0) (fc_name fc) (mcp_services eng) = Ok found ->
     let tool_args := match fc_args fc with Some a => a | None => [] end in
     let payload :=
       match found with
       | Some service =>
           match call_tool service 0 (fc_name fc) tool_args with
           | Ok (PDict d) => d
           | Ok v => [("output", v)]
           | Raise e =>
               [("error",
                 PStr (tool_error_message (fc_name fc) (server_name service) e));
                ("details", PStr (format_exc e))]
           end
       | None =>
           [("error",
             PStr (tool_not_found_message (fc_name fc) (workflow_name eng)))]
       end in
     query eng user_query =
     {| answer :=
          Returned "[Max interaction turns reached. No final text generated.]";
        history :=
          [{| parts := Some [text_part prompt]; role := "user" |};
           c;
           {| parts := Some [from_function_response (fc_name fc) payload];
              role := "user" |}];
        llm_calls := [Ok resp] |})
  /\
  (forall prompt cfg resp cand rest c ps fc e,
     services_missing eng = false ->
     (0 < max_turns eng)%Z ->
     format (initial_prompt_template (workflow_config eng)) user_query =
       Formatted prompt ->
     prepare_tools_for_llm genai_tool (all_mcp_tools eng) = Ok cfg ->
     generate_response 0
       [{| parts := Some [text_part prompt]; role := "user" |}] cfg = Ok resp ->
     candidates resp = cand :: rest ->
     content cand = Some c ->
     parts c = Some ps ->
     first_function_call ps fc ->
     find_service (AtTurn 0) (fc_name fc) (mcp_services eng) = Raise e ->
     query eng user_query =
     {| answer := Raised e;
        history := [{| parts := Some [text_part prompt]; role := "user" |}; c];
        llm_calls := [Ok resp] |}).
Proof.
  splits.
  - pose proof (llm_calls_bound eng user_query). lia.
  - intros prompt cfg resp cand rest c ps fc found Hm Hmax Hf Hp Hr Hc Hcc Hps
      Hfc Hfound tool_args payload.
    rewrite (query_formatted _ _ _ _ _ _ _ Hm Hf Hp).
    unfold max_turns. rewrite Hmax.
    change (Z.to_nat 1) with 1. unfold run_turns. cbn [turn_loop].
    rewrite (turn_body_continue generate_response format_exc eng _ 0
               (initial_state prompt) _ _ _ _ _ _ _ Hr Hc Hcc Hps Hfc
               (tool_result_found _ _ _ _ Hfound)).
    reflexivity.
  - intros prompt cfg resp cand rest c ps fc e Hm Hpos Hf Hp Hr Hc Hcc Hps Hfc
      Hfound.
    rewrite (query_formatted _ _ _ _ _ _ _ Hm Hf Hp).
    destruct (Z.to_nat (max_turns eng)) as [|n] eqn:Hn; [lia|].
    unfold run_turns. cbn [turn_loop].
    assert (Hp' : tool_result_for_llm format_exc eng 0 fc = Raise e).
    { unfold tool_result_for_llm. now rewrite Hfound. }
    rewrite (turn_body_listing_fails generate_response format_exc eng _ 0
               (initial_state prompt) _ _ _ _ _ _ _ Hr Hc Hcc Hps Hfc Hp').
    reflexivity.
Qed.

(** C1, amended.  Only the text of the final turn is accumulated: when the
    last response of the gateway carries no function call and some text
    that is not blank, the query returns the concatenation, in Part order,
    of the non-blank text Parts of that response, trimmed; and a turn whose
    response carries a function call leaves the answer buffer as it was. *)
Theorem answer_is_final_turn_text (eng : WorkflowEngine) (user_query : string) :
  (forall resp cand rest c ps,
     last_opt (llm_calls (query eng user_query)) = Some (Ok resp) ->
     candidates resp = cand :: rest ->
     content cand = Some c ->
     parts c = Some ps ->
     has_function_call ps = false ->
     nonblank_texts ps <> [] ->
     answer (query eng user_query) =
     Returned (strip (join (nonblank_texts ps))))
  /\
  (forall cfg turn st,
     continues (generate_response turn (conversation_history st) cfg) = true ->
     final_response_parts (snd (body eng cfg turn st)) =
     final_response_parts st).
Proof.
  split.
  - intros resp cand rest c ps Hlast Hc Hcc Hps Hfc Htexts.
    assert (Hfp : first_parts resp = Some ps).
    { unfold first_parts. now rewrite Hc, Hcc. }
    assert (Hcont : continues (Ok resp) = false).
    { simpl. now rewrite Hfp. }
    assert (Hmal : malformed (Ok resp) = false).
    { simpl. now rewrite Hc, Hfp. }
    destruct (last_opt_inv _ _ Hlast) as [l Hl].
    rewrite (query_last_outcome _ _ _ _ _ (Ok resp)); auto.
    + cbn [break_parts]. rewrite Hc, Hfp. unfold final_turn_parts.
      pose proof (nonblank_texts_any _ Htexts) as Hany.
      destruct (nonblank_texts ps) as [|t ts]; [congruence|].
      cbn [app]. now rewrite Hany.
    + rewrite Hl. apply in_or_app. right. now left.
  - intros cfg turn st Hcont.
    destruct (continues_inv _ Hcont)
      as (resp & cand & rest & c & ps & fc & Hr & Hc & Hcc & Hps & Hfc).
    destruct (tool_result_for_llm format_exc eng turn fc) as [payload|e] eqn:Hp.
    + now rewrite (turn_body_continue _ _ _ _ _ _ _ _ _ _ _ _ _ Hr Hc Hcc Hps
                     Hfc Hp).
    + now rewrite (turn_body_listing_fails _ _ _ _ _ _ _ _ _ _ _ _ _ Hr Hc Hcc
                     Hps Hfc Hp).
Qed.

(** C2, amended.  A failure of the gateway and a response without
    candidates end the query with their bracketed marker as the answer.  A
    tool that no service declares and a tool call that raises are answered
    to the model, as the [error] entry of the function response appended to
    the conversation; the answer buffer is left as it was and the loop goes
    on. *)
Theorem error_markers (eng : WorkflowEngine) (user_query : string) :
  (forall e,
     In (Raise e) (llm_calls (query eng user_query)) ->
     answer (query eng user_query) =
     Returned ("[" ++ llm_error_message (workflow_name eng) e ++ "]"))
  /\
  (forall resp,
     In (Ok resp) (llm_calls (query eng user_query)) ->
     candidates resp = [] ->
     answer (query eng user_query) =
     Returned "[AI model returned no response candidates.]")
  /\
  (forall cfg turn st resp cand rest c ps fc found,
     generate_response turn (conversation_history st) cfg = Ok resp ->
     candidates resp = cand :: rest ->
     content cand = Some c ->
     parts c = Some ps ->
     first_function_call ps fc ->
     find_service (AtTurn turn) (fc_name fc) (mcp_services eng) = Ok found ->
     exists payload,
       body eng cfg turn st =
       (Continue,
        {| conversation_history :=
             (conversation_history st
              ++ [c;
                  {| parts :=
                       Some [from_function_response (fc_name fc) payload];
                     role := "user" |}])%list;
           final_response_parts := final_response_parts st;
           llm_log := (llm_log st ++ [Ok resp])%list |})
       /\ (found = None ->
           payload =
           [("error",
             PStr (tool_not_found_message (fc_name fc) (workflow_name eng)))])
       /\ (forall service e,
             found = Some service ->
             call_tool service turn (fc_name fc)
               (match fc_args fc with Some a => a | None => [] end) =
             Raise e ->
             payload =
             [("error",
               PStr (tool_error_message (fc_name fc) (server_name service) e));
              ("details", PStr (format_exc e))])).
Proof.
  splits.
  - intros e Hin.
    rewrite (query_last_outcome _ _ _ _ _ (Raise e) Hin eq_refl eq_refl).
    cbn [break_parts]. now rewrite join_single, strip_marker.
  - intros resp Hin Hc.
    rewrite (query_last_outcome _ _ _ _ _ (Ok resp) Hin).
    + simpl. now rewrite Hc.
    + simpl. unfold first_parts. now rewrite Hc.
    + simpl. now rewrite Hc.
  - intros cfg turn st resp cand rest c ps fc found Hr Hc Hcc Hps Hfc Hfound.
    eexists. splits.
    + exact (turn_body_continue _ _ _ _ _ _ _ _ _ _ _ _ _ Hr Hc Hcc Hps Hfc
               (tool_result_found _ _ _ _ Hfound)).
    + now intros ->.
    + intros service e -> Hraise. now rewrite Hraise.
Qed.

(** C3, amended.  With a gateway that answers with model Turns that carry
    no function response, in the conversation after any number of turns
    every Turn with a function response comes after a model Turn with a
    function call of the same name; a further turn only appends to the
    conversation; and the same holds of the conversation of a whole
    query. *)
Theorem function_responses_follow_calls (eng : WorkflowEngine)
  (cfg : option GenerateContentConfig) (prompt user_query : string) (n : nat) :
  model_turns_only generate_response ->
  responses_preceded (conversation_history (snd (turns eng cfg prompt n)))
  /\ (exists suffix,
        conversation_history (snd (turns eng cfg prompt (S n))) =
        (conversation_history (snd (turns eng cfg prompt n)) ++ suffix)%list)
  /\ responses_preceded (history (query eng user_query)).
Proof.
  intros Hgw.
  assert (Hrun : forall c p k,
            responses_preceded (conversation_history (snd (turns eng c p k)))).
  { intros c p k. apply turn_loop_preceded; [exact Hgw|].
    apply initial_state_preceded. }
  splits.
  - apply Hrun.
  - unfold run_turns. rewrite turn_loop_snoc.
    destruct (loop eng cfg n 0 (initial_state prompt)) as [[] st]; simpl;
      try (exists []; now rewrite app_nil_r).
    apply turn_body_history.
  - destruct (query_cases generate_response genai_tool format_exc eng user_query)
      as [(_ & [->|[p ->]] & _)|(Hm & p & c & Hf & Hp)].
    + intros i x q fr Hi. now destruct i.
    + apply initial_state_preceded.
    + rewrite (query_formatted _ _ _ _ _ _ _ Hm Hf Hp). apply Hrun.
Qed.

(** C8, amended.  For the first function call of a response, resolved to a
    service: a mapping result is the payload as it is, any other result [v]
    (a string or not) is stored unchanged as [{output: v}], and a failed
    call gives [{error: message, details: traceback}].  The payload is
    appended, after the model Turn, as the function response of a user Turn,
    the answer buffer is left as it was, and the loop goes on with the next
    turn. *)
Theorem tool_result_wrapped (eng : WorkflowEngine)
  (cfg : option GenerateContentConfig) (turn n : nat) (st : LoopState)
  (resp : GenerateContentResponse) (cand : Candidate) (rest : list Candidate)
  (c : Content) (ps : list Part) (fc : FunctionCall) (service : MCPService) :
  generate_response turn (conversation_history st) cfg = Ok resp ->
  candidates resp = cand :: rest ->
  content cand = Some c ->
  parts c = Some ps ->
  first_function_call ps fc ->
  find_service (AtTurn turn) (fc_name fc) (mcp_services eng) =
    Ok (Some service) ->
  let tool_args := match fc_args fc with Some a => a | None => [] end in
  let payload :=
    match call_tool service turn (fc_name fc) tool_args with
    | Ok (PDict d) => d
    | Ok v => [("output", v)]
    | Raise e =>
        [("error",
          PStr (tool_error_message (fc_name fc) (server_name service) e));
         ("details", PStr (format_exc e))]
    end in
  let st' :=
    {| conversation_history :=
         (conversation_history st
          ++ [c;
              {| parts := Some [from_function_response (fc_name fc) payload];
                 role := "user" |}])%list;
       final_response_parts := final_response_parts st;
       llm_log := (llm_log st ++ [Ok resp])%list |} in
  body eng cfg turn st = (Continue, st')
  /\ loop eng cfg (S n) turn st = loop eng cfg n (S turn) st'.
Proof.
  intros Hr Hc Hcc Hps Hfc Hs tool_args payload st'.
  assert (Hb : body eng cfg turn st = (Continue, st')).
  { exact (turn_body_continue _ _ _ _ _ _ _ _ _ _ _ _ _ Hr Hc Hcc Hps Hfc
             (tool_result_found _ _ _ _ Hs)). }
  split; [exact Hb|]. cbn [turn_loop]. now rewrite Hb.
Qed.


End Claims.

(** ** The claims on the scenarios *)

(** A query before [setup_services]. *)
Lemma uninitialized_services_guard_witness :
  process_user_query (scripted weather_script) plain_tool no_traceback
    fresh_engine "hi" =
  {| answer := Returned "Error: Workflow services are not initialized.";
     history := [];
     llm_calls := [] |}.
Proof.
  apply (uninitialized_services_guard (scripted weather_script) plain_tool
           no_traceback fresh_engine "hi").
  - reflexivity.
  - discriminate.
Defined.

Lemma checking_first_call : first_function_call
  [text_part "Let me check."; call_part "get_weather" []] weather_call.
Proof.
  exists [text_part "Let me check."], (call_part "get_weather" []), [].
  now splits.
Qed.

(** One turn of budget and a first response with a function call. *)
Lemma at_most_max_turns_llm_calls_witness :
  process_user_query (scripted weather_script) plain_tool no_traceback
    (demo_engine ["weather"] "Q: {query}" 1) "hi" =
  {| answer :=
       Returned "[Max interaction turns reached. No final text generated.]";
     history :=
       [{| parts := Some [text_part "Q: hi"]; role := "user" |};
        checking_content;
        {| parts :=
             Some [from_function_response "get_weather"
                     [("output", PStr "sunny")]];
           role := "user" |}];
     llm_calls := [Ok (response_of checking_turn)] |}.
Proof.
  apply (proj1 (proj2 (at_most_max_turns_llm_calls (scripted weather_script)
                         plain_tool no_traceback
                         (demo_engine ["weather"] "Q: {query}" 1) "hi"))
           "Q: hi"
           (Some {| tools :=
                      [{| function_declarations :=
                            convert_all [get_weather] |}] |})
           (response_of checking_turn) checking_turn [] checking_content
           [text_part "Let me check."; call_part "get_weather" []]
           weather_call
           (Some {| server_name := "weather";
                    session := session_of get_weather (Ok (PStr "sunny")) |}));
    try reflexivity.
  exists [text_part "Let me check."], (call_part "get_weather" []), [].
  splits; reflexivity.
Defined.

(** C4 as stated fails: with one turn of budget and a first response with
    a function call, a service that cannot list its tools when the call is
    dispatched ends the query with its exception; no tool result is
    appended and no marker is returned. *)
Lemma listing_failure_ends_query :
  let eng := demo_engine ["dropping"] "Q: {query}" 1 in
  let run := process_user_query (scripted weather_script) plain_tool
               no_traceback eng "hi" in
  max_turns eng = 1%Z
  /\ services_missing eng = false
  /\ llm_calls run = [Ok (response_of checking_turn)]
  /\ has_function_call (parts_list checking_content) = true
  /\ answer run = Raised closed_error
  /\ history run =
     [{| parts := Some [text_part "Q: hi"]; role := "user" |};
      checking_content].
Proof. cbv zeta. splits; reflexivity. Qed.

(** The answer of the weather scenario is the text of its last turn. *)
Lemma answer_is_final_turn_text_witness :
  answer (process_user_query (scripted weather_script) plain_tool no_traceback
            (demo_engine ["weather"] "Q: {query}" 5) "hi") =
  Returned (strip (join (nonblank_texts [text_part "It is sunny."]))).
Proof.
  apply (proj1 (answer_is_final_turn_text (scripted weather_script) plain_tool
                  no_traceback (demo_engine ["weather"] "Q: {query}" 5) "hi")
           (response_of sunny_turn) sunny_turn [] sunny_content
           [text_part "It is sunny."]).
  - reflexivity.
  - reflexivity.
  - reflexivity.
  - reflexivity.
  - reflexivity.
  - discriminate.
Defined.

(** C1 as stated fails: the text of the turn that calls the tool is a text
    Part returned by the model, and it is not in the answer. *)
Lemma text_of_tool_turn_dropped :
  let run := process_user_query (scripted weather_script) plain_tool
               no_traceback (demo_engine ["weather"] "Q: {query}" 5) "hi" in
  In (Ok (response_of checking_turn)) (llm_calls run)
  /\ In (text_part "Let me check.") (parts_list checking_content)
  /\ answer run = Returned "It is sunny."
  /\ answer run <> Returned (strip (join ["Let me check."; "It is sunny."]))
  /\ contains "Let me check." "It is sunny." = false.
Proof.
  cbv zeta. splits.
  - left. reflexivity.
  - left. reflexivity.
  - reflexivity.
  - discriminate.
  - reflexivity.
Qed.

(** The gateway fails on the first call. *)
Lemma error_markers_witness :
  answer (process_user_query (scripted []) plain_tool no_traceback
            (demo_engine [] "Q: {query}" 3) "hi") =
  Returned "[Error communicating with LLM in workflow 'demo': script exhausted]".
Proof.
  apply (proj1 (error_markers (scripted []) plain_tool no_traceback
                  (demo_engine [] "Q: {query}" 3) "hi")
           {| exn_type := "RuntimeError"; exn_str := "script exhausted" |}).
  left. reflexivity.
Defined.

(** C2 as stated fails: the model asks for a tool that no service declares,
    and the answer carries no bracket at all. *)
Lemma tool_not_found_not_in_answer :
  let eng := demo_engine ["weather"] "Q: {query}" 5 in
  let run := process_user_query (scripted unknown_tool_script) plain_tool
               no_traceback eng "hi" in
  find_service (AtTurn 0) "get_time" (mcp_services eng) = Ok None
  /\ In (Ok (response_of
               {| content := Some (model_turn [call_part "get_time" []]) |}))
       (llm_calls run)
  /\ answer run = Returned "Done."
  /\ contains "[" "Done." = false.
Proof.
  cbv zeta. splits.
  - reflexivity.
  - left. reflexivity.
  - reflexivity.
  - reflexivity.
Qed.

Lemma weather_script_model_turns : model_turns_only (scripted weather_script).
Proof.
  intros turn h cfg resp cand rest c Hr Hc Hcc. unfold scripted in Hr.
  destruct turn as [|[|turn]]; simpl in Hr.
  - inversion Hr; subst resp. simpl in Hc. inversion Hc; subst cand.
    inversion Hcc; subst c.
    split; [reflexivity|]. intros p [<-|[<-|[]]]; reflexivity.
  - inversion Hr; subst resp. simpl in Hc. inversion Hc; subst cand.
    inversion Hcc; subst c.
    split; [reflexivity|]. intros p [<-|[]]; reflexivity.
  - destruct turn; discriminate.
Qed.

(** The conversation of the weather scenario. *)
Lemma function_responses_follow_calls_witness :
  responses_preceded
    (history (process_user_query (scripted weather_script) plain_tool
                no_traceback (demo_engine ["weather"] "Q: {query}" 5) "hi")).
Proof.
  apply (function_responses_follow_calls (scripted weather_script) plain_tool
           no_traceback (demo_engine ["weather"] "Q: {query}" 5) None
           "Q: hi" "hi" 0).
  exact weather_script_model_turns.
Defined.

(** C3 as stated fails: the engine appends the content of the candidate as
    the gateway gives it, so a content with a function response that answers
    no function call puts that response in the conversation, after no call
    at all. *)
Lemma forged_response_unpreceded :
  let run := process_user_query (scripted [Ok (response_of forged_turn)])
               plain_tool no_traceback
               (demo_engine ["weather"] "Q: {query}" 5) "hi" in
  history run =
    [{| parts := Some [text_part "Q: hi"]; role := "user" |}; forged_content]
  /\ In (from_function_response "get_weather" [("output", PStr "sunny")])
       (parts_list forged_content)
  /\ (forall m, In m (history run) -> ~ calls_tool "get_weather" m)
  /\ ~ responses_preceded (history run).
Proof.
  cbv zeta. splits.
  - reflexivity.
  - left. reflexivity.
  - intros m [<-|[<-|[]]] (p & fc & Hp & Hfc & _).
    + destruct Hp as [<-|[]]. discriminate.
    + destruct Hp as [<-|[<-|[]]]; discriminate.
  - intros H.
    destruct (H 1 forged_content
                (from_function_response "get_weather" [("output", PStr "sunny")])
                {| fr_name := "get_weather";
                   fr_response := [("output", PStr "sunny")] |}
                eq_refl (or_introl eq_refl) eq_refl)
      as (j & m & Hj & Hm & Hrole & _).
    destruct j as [|j]; [|lia]. inversion Hm; subst m. discriminate.
Qed.

(** The first turn of the weather scenario, on a service whose tool answers
    with an integer. *)
Lemma tool_result_wrapped_witness :
  turn_body (scripted weather_script) no_traceback
    (demo_engine ["backup"] "Q: {query}" 5) None 0 (initial_state "Q: hi") =
  (Continue,
   {| conversation_history :=
        [{| parts := Some [text_part "Q: hi"]; role := "user" |};
         checking_content;
         {| parts := Some [from_function_response "get_weather"
                             [("output", PInt 42)]];
            role := "user" |}];
      final_response_parts := [];
      llm_log := [Ok (response_of checking_turn)] |}).
Proof.
  apply (proj1 (tool_result_wrapped (scripted weather_script) no_traceback
                  (demo_engine ["backup"] "Q: {query}" 5) None 0 0
                  (initial_state "Q: hi") (response_of checking_turn)
                  checking_turn [] checking_content
                  [text_part "Let me check."; call_part "get_weather" []]
                  weather_call
                  {| server_name := "backup";
                     session := session_of get_weather (Ok (PInt 42)) |}
                  eq_refl eq_refl eq_refl eq_refl
                  (ex_intro _ [text_part "Let me check."]
                     (ex_intro _ (call_part "get_weather" [])
                        (ex_intro _ []
                           (conj eq_refl (conj eq_refl eq_refl)))))
                  eq_refl)).
Defined.

(** C8 as stated fails: a result that is neither a string nor a mapping is
    not turned into a string, and the payload of a failed call has a second
    entry. *)
Lemma tool_result_not_stringified :
  tool_result_for_llm no_traceback (demo_engine ["backup"] "Q: {query}" 5) 0
    weather_call = Ok [("output", PInt 42)]
  /\ tool_result_for_llm no_traceback (demo_engine ["backup"] "Q: {query}" 5) 0
       weather_call <> Ok [("output", PStr "42")]
  /\ tool_result_for_llm no_traceback (demo_engine ["flaky"] "Q: {query}" 5) 0
       weather_call =
     Ok [("error",
          PStr "Error executing MCP tool 'get_weather' via 'flaky': timed out");
         ("details", PStr "")].
Proof. splits; [reflexivity|discriminate|reflexivity]. Qed.



(** * Further properties *)

(** ** Dictionaries *)

Lemma dict_get_set {V : Type} (k k' : string) (v : V)
  (d : list (string * V)) :
  dict_get k' (dict_set k v d) = if k =? k' then Some v else dict_get k' d.
Proof.
  induction d as [|[k0 v0] d IH]; simpl.
  - reflexivity.
  - destruct (k0 =? k) eqn:H0; simpl.
    + apply String.eqb_eq in H0. subst k0. now destruct (k =? k').
    + destruct (k0 =? k') eqn:H1.
      * apply String.eqb_eq in H1. subst k0.
        now rewrite String.eqb_sym, H0.
      * exact IH.
Qed.

Lemma in_dict_set_any {V : Type} (k : string) (v : V) (d : list (string * V)) :
  forall k' v', In (k', v') (dict_set k v d) ->
    (k', v') = (k, v) \/ In (k', v') d.
Proof.
  induction d as [|[k0 v0] d IH]; simpl; intros k' v' H.
  - destruct H as [H|[]]. now left.
  - destruct (k0 =? k).
    + destruct H as [H|H]; [now left|now right; right].
    + destruct H as [H|H]; [now right; left|].
      destruct (IH _ _ H); [now left|now right; right].
Qed.

Lemma dict_get_in {V : Type} (k : string) (v : V) (d : list (string * V)) :
  dict_get k d = Some v -> In (k, v) d.
Proof.
  induction d as [|[k0 v0] d IH]; simpl; [discriminate|].
  destruct (k0 =? k) eqn:H0.
  - apply String.eqb_eq in H0. intros H. inversion H. subst. now left.
  - intros H. right. now apply IH.
Qed.

Lemma in_dict_get {V : Type} (k : string) (v : V) (d : list (string * V)) :
  In (k, v) d -> exists v', dict_get k d = Some v'.
Proof.
  induction d as [|[k0 v0] d IH]; simpl; [intros []|].
  intros [H|H].
  - inversion H. subst. rewrite String.eqb_refl. now exists v.
  - destruct (k0 =? k); [now exists v0|]. now apply IH.
Qed.

(** ** The schema translator: what a declaration holds *)

Lemma description_described (t : Tool) :
  match description t with
  | PStr s =>
      if (s =? "") || (strip s =? "")
      then PStr (default_description (name t)) else PStr s
  | _ => PStr (default_description (name t))
  end = PStr (described t).
Proof.
  unfold described. destruct (description t); try reflexivity.
  destruct (s =? "") eqn:Hs; simpl.
  - apply String.eqb_eq in Hs. now subst s.
  - now destruct (strip s =? "").
Qed.

(** The shape of a declaration. *)
Lemma convert_inv (t : Tool) (v : pyval) :
  _convert_mcp_tool_to_genai_function t = Ok v ->
  exists gp req,
    v = PDict [("name", PStr (name t));
               ("description", PStr (described t));
               ("parameters",
                PDict (("type", PStr "object")
                       :: ("properties", PDict gp) :: req))]
    /\ match inputSchema t with
       | PDict ((_ :: _) as schema) =>
           exists props,
             (dict_get "properties" schema = None /\ props = []
              \/ dict_get "properties" schema = Some (PDict props))
             /\ convert_properties props [] = Ok gp
             /\ req = required_entry schema
       | _ => gp = [] /\ req = []
       end.
Proof.
  unfold _convert_mcp_tool_to_genai_function. rewrite description_described.
  destruct (inputSchema t) as [| | | | | |schema|];
    try (intros H; inversion H; exists [], []; now splits).
  destruct schema as [|entry schema];
    [intros H; inversion H; exists [], []; now splits|].
  remember (entry :: schema) as sch eqn:Hsch.
  assert (Hreq : forall gp : dict,
            match
              match dict_get "required" sch with
              | Some r => r
              | None => PList []
              end
            with
            | PList ((_ :: _) as l) =>
                if all_str l
                then dict_set "required"
                       match dict_get "required" sch with
                       | Some r => r
                       | None => PList []
                       end
                       (dict_set "properties" (PDict gp)
                          [("type", PStr "object"); ("properties", PDict [])])
                else dict_set "properties" (PDict gp)
                       [("type", PStr "object"); ("properties", PDict [])]
            | _ => dict_set "properties" (PDict gp)
                     [("type", PStr "object"); ("properties", PDict [])]
            end =
            ("type", PStr "object") :: ("properties", PDict gp)
            :: required_entry sch).
  { intros gp. unfold required_entry.
    destruct (dict_get "required" sch) as [[| | | | |[|x l]| |]|];
      try reflexivity.
    now destruct (all_str (x :: l)). }
  destruct (dict_get "properties" sch) as [pv|] eqn:Hp.
  - destruct pv as [| | | | | |props|]; try discriminate.
    cbn [bind]. destruct (convert_properties props []) as [gp|e] eqn:Hcp;
      [|discriminate].
    cbn [bind]. rewrite Hreq. intros H; inversion H.
    exists gp, (required_entry sch). split; [reflexivity|].
    exists props. splits; auto.
  - cbn [bind convert_properties]. rewrite Hreq. intros H; inversion H.
    exists [], (required_entry sch). split; [reflexivity|].
    exists []. splits; auto.
Qed.

(** What [convert_property] stores for a property. *)
Lemma convert_property_spec (schema_prop cur : dict) :
  convert_property schema_prop = Ok cur ->
  In (translated_type schema_prop) valid_types
  /\ dict_get "type" cur = Some (PStr (translated_type schema_prop))
  /\ dict_get "description" cur = dict_get "description" schema_prop
  /\ dict_get "enum" cur =
     match dict_get "enum" schema_prop with
     | Some (PList l) => Some (PList l)
     | _ => None
     end
  /\ dict_get "items" cur =
     if translated_type schema_prop =? "array"
     then Some match dict_get "items" schema_prop with
               | Some items => items
               | None => PDict [("type", PStr "string")]
               end
     else None.
Proof.
  unfold convert_property, translated_type.
  assert (Hin : forall s,
            In (if existsb (String.eqb s) valid_types then s else "string")
              valid_types).
  { intros s. destruct (existsb (String.eqb s) valid_types) eqn:He.
    - apply existsb_exists in He as (x & Hx & Heq).
      apply String.eqb_eq in Heq. now subst.
    - simpl. auto. }
  destruct (dict_get "type" schema_prop) as [ty|] eqn:Hty.
  - destruct ty; try discriminate. cbn [bind].
    specialize (Hin (lower s)).
    set (ty := if existsb (String.eqb (lower s)) valid_types
               then lower s else "string") in *.
    clearbody ty. intros H. inversion H; subst cur; clear H.
    split; [exact Hin|].
    destruct (dict_get "description" schema_prop);
      destruct (dict_get "enum" schema_prop) as [[]|];
      destruct (ty =? "array");
      destruct (dict_get "items" schema_prop);
      now splits.
  - cbn [bind]. intros H. inversion H; subst cur; clear H.
    split; [simpl; auto|].
    change (existsb (String.eqb (lower "string")) valid_types) with true.
    cbv iota. change (lower "string") with "string".
    change ("string" =? "array") with false. cbv iota.
    destruct (dict_get "description" schema_prop);
      destruct (dict_get "enum" schema_prop) as [[]|];
      now splits.
Qed.

(** What [convert_properties] adds to the properties collected so far. *)
Lemma convert_properties_in (props : dict) :
  forall acc out k v,
  convert_properties props acc = Ok out ->
  In (k, v) out ->
  In (k, v) acc
  \/ exists schema_prop cur,
       In (k, PDict schema_prop) props
       /\ convert_property schema_prop = Ok cur
       /\ v = PDict cur.
Proof.
  induction props as [|[pname pv] props IH]; intros acc out k v Hrun Hin;
    simpl in Hrun.
  - inversion Hrun; subst. now left.
  - assert (Hskip : convert_properties props acc = Ok out ->
              In (k, v) acc
              \/ exists schema_prop cur,
                   In (k, PDict schema_prop) ((pname, pv) :: props)
                   /\ convert_property schema_prop = Ok cur
                   /\ v = PDict cur).
    { intros Hr. destruct (IH _ _ _ _ Hr Hin) as [H|(sp & cur & H1 & H2 & H3)];
        [now left|].
      right. exists sp, cur. splits; auto. now right. }
    destruct pv as [| | | | | |sp|]; try (now apply Hskip).
    destruct (convert_property sp) as [cur|e] eqn:Hcur; [|discriminate].
    cbn [bind] in Hrun.
    destruct (IH _ _ _ _ Hrun Hin) as [H|(sp' & cur' & H1 & H2 & H3)].
    + apply in_dict_set_any in H as [H|H]; [|now left].
      inversion H; subst. right. exists sp, cur. splits; auto. now left.
    + right. exists sp', cur'. splits; auto. now right.
Qed.

Lemma convert_properties_keeps (props : dict) :
  forall acc out k,
  convert_properties props acc = Ok out ->
  dict_get k acc <> None -> dict_get k out <> None.
Proof.
  induction props as [|[pname pv] props IH]; intros acc out k Hrun Hk;
    simpl in Hrun.
  - inversion Hrun; now subst.
  - destruct pv as [| | | | | |sp|]; try (now apply (IH _ _ _ Hrun)).
    destruct (convert_property sp) as [cur|e]; [|discriminate].
    cbn [bind] in Hrun. apply (IH _ _ _ Hrun).
    rewrite dict_get_set. now destruct (pname =? k).
Qed.

Lemma convert_properties_has (props : dict) :
  forall acc out k schema_prop,
  convert_properties props acc = Ok out ->
  In (k, PDict schema_prop) props ->
  dict_get k out <> None.
Proof.
  induction props as [|[pname pv] props IH]; intros acc out k sp Hrun Hin;
    simpl in Hrun; [destruct Hin|].
  destruct Hin as [Heq|Hin].
  - inversion Heq; subst.
    destruct (convert_property sp) as [cur|e]; [|discriminate].
    cbn [bind] in Hrun. apply (convert_properties_keeps _ _ _ _ Hrun).
    rewrite dict_get_set, String.eqb_refl. discriminate.
  - destruct pv as [| | | | | |sp0|]; try (now apply (IH _ _ _ _ Hrun Hin)).
    destruct (convert_property sp0) as [cur|e]; [|discriminate].
    cbn [bind] in Hrun. now apply (IH _ _ _ _ Hrun Hin).
Qed.

(** The properties of a declaration are the converted properties of the input
    schema. *)
Lemma declaration_properties_inv (t : Tool) (decl : pyval) (props : dict) :
  _convert_mcp_tool_to_genai_function t = Ok decl ->
  declaration_properties decl = Some props ->
  exists source,
    convert_properties source [] = Ok props
    /\ (source = []
        \/ exists schema,
             inputSchema t = PDict schema
             /\ dict_get "properties" schema = Some (PDict source)).
Proof.
  intros Hc Hp. destruct (convert_inv _ _ Hc) as (gp & req & -> & Hs).
  simpl in Hp. inversion Hp; subst gp; clear Hp.
  destruct (inputSchema t) as [| | | | | |schema|];
    try (destruct Hs as [-> _]; exists []; split; [reflexivity|now left]).
  destruct schema as [|entry schema];
    [destruct Hs as [-> _]; exists []; split; [reflexivity|now left]|].
  destruct Hs as (source & [[_ ->]|Hsrc] & Hconv & _).
  - exists []. split; [exact Hconv|now left].
  - exists source. split; [exact Hconv|]. right. now eexists.
Qed.

Lemma declaration_property_source (t : Tool) (decl : pyval) (props : dict)
  (k : string) (v : pyval) :
  _convert_mcp_tool_to_genai_function t = Ok decl ->
  declaration_properties decl = Some props ->
  In (k, v) props ->
  exists schema source schema_prop cur,
    inputSchema t = PDict schema
    /\ dict_get "properties" schema = Some (PDict source)
    /\ In (k, PDict schema_prop) source
    /\ convert_property schema_prop = Ok cur
    /\ v = PDict cur.
Proof.
  intros Hc Hp Hin.
  destruct (declaration_properties_inv _ _ _ Hc Hp)
    as (source & Hconv & Hsrc).
  destruct (convert_properties_in _ _ _ _ _ Hconv Hin)
    as [[]|(sp & cur & Hsp & Hcur & ->)].
  destruct Hsrc as [->|(schema & Hs & Hg)]; [destruct Hsp|].
  now exists schema, source, sp, cur.
Qed.

(** X1.  A declaration carries the name of the tool, a description that is
    never empty (the description of the tool when it is a string with a
    character that is no blank, [Tool to perform <name>] otherwise) and
    parameters of type [object] with a mapping of properties. *)
Theorem declaration_shape (t : Tool) (decl : pyval) :
  _convert_mcp_tool_to_genai_function t = Ok decl ->
  declaration_name decl = Some (name t)
  /\ (exists d, decl = PDict d
               /\ dict_get "description" d = Some (PStr (described t)))
  /\ described t <> ""
  /\ (forall s, description t = PStr s -> strip s <> "" -> described t = s)
  /\ ((forall s, description t = PStr s -> strip s = "") ->
      described t = "Tool to perform " ++ name t)
  /\ (exists d ps props,
        decl = PDict d
        /\ dict_get "parameters" d = Some (PDict ps)
        /\ dict_get "type" ps = Some (PStr "object")
        /\ dict_get "properties" ps = Some (PDict props)).
Proof.
  intros Hc. destruct (convert_inv _ _ Hc) as (gp & req & -> & _). splits.
  - reflexivity.
  - eexists. split; reflexivity.
  - unfold described. destruct (description t); try discriminate.
    destruct (strip s =? "") eqn:Hs; [discriminate|].
    intros ->. discriminate.
  - intros s Hd Hs. unfold described. rewrite Hd.
    apply String.eqb_neq in Hs. now rewrite Hs.
  - intros Hblank. unfold described.
    destruct (description t) as [| | | |s| | |]; try reflexivity.
    now rewrite (Hblank s eq_refl).
  - do 3 eexists. splits; reflexivity.
Qed.

Lemma declaration_shape_witness :
  declaration_name
    (PDict [("name", PStr "search");
            ("description", PStr "Tool to perform search");
            ("parameters",
             PDict [("type", PStr "object");
                    ("properties",
                     PDict [("q", PDict [("type", PStr "string")]);
                            ("tags",
                             PDict [("type", PStr "array");
                                    ("items",
                                     PDict [("type", PStr "string")])])])])]) =
  Some (name sloppy_tool).
Proof.
  apply (proj1 (declaration_shape sloppy_tool _ eq_refl)).
Defined.

(** X2.  Every property of a declaration comes from a property of the input
    schema that is a mapping, and its type is one of the six kinds: the
    source type in lower case when that is one of them, [string] when the
    source type is unknown or absent. *)
Theorem declaration_property_types (t : Tool) (decl : pyval) (props : dict)
  (k : string) (v : pyval) :
  _convert_mcp_tool_to_genai_function t = Ok decl ->
  declaration_properties decl = Some props ->
  In (k, v) props ->
  exists schema source schema_prop cur,
    inputSchema t = PDict schema
    /\ dict_get "properties" schema = Some (PDict source)
    /\ In (k, PDict schema_prop) source
    /\ v = PDict cur
    /\ dict_get "type" cur = Some (PStr (translated_type schema_prop))
    /\ In (translated_type schema_prop)
         ["string"; "number"; "integer"; "boolean"; "array"; "object"].
Proof.
  intros Hc Hp Hin.
  destruct (declaration_property_source _ _ _ _ _ Hc Hp Hin)
    as (schema & source & sp & cur & H1 & H2 & H3 & H4 & H5).
  destruct (convert_property_spec _ _ H4) as (Hv & Hty & _).
  exists schema, source, sp, cur. now splits.
Qed.

Lemma declaration_property_types_witness :
  exists schema source schema_prop cur,
    inputSchema sloppy_tool = PDict schema
    /\ dict_get "properties" schema = Some (PDict source)
    /\ In ("q", PDict schema_prop) source
    /\ PDict [("type", PStr "string")] = PDict cur
    /\ dict_get "type" cur = Some (PStr (translated_type schema_prop))
    /\ In (translated_type schema_prop)
         ["string"; "number"; "integer"; "boolean"; "array"; "object"].
Proof.
  apply (declaration_property_types sloppy_tool _ _ "q"
           (PDict [("type", PStr "string")]) eq_refl eq_refl).
  left. reflexivity.
Defined.

(** X3.  The properties of a declaration are exactly the properties of the
    input schema that are mappings: an entry that is no mapping is left
    out, and no other name appears. *)
Theorem declaration_property_names (t : Tool) (decl : pyval)
  (schema source : dict) (k : string) :
  _convert_mcp_tool_to_genai_function t = Ok decl ->
  inputSchema t = PDict schema ->
  dict_get "properties" schema = Some (PDict source) ->
  exists props,
    declaration_properties decl = Some props
    /\ (dict_get k props <> None <->
        exists schema_prop, In (k, PDict schema_prop) source).
Proof.
  intros Hc Hs Hsrc. destruct (convert_inv _ _ Hc) as (gp & req & -> & Hinv).
  exists gp. split; [reflexivity|].
  rewrite Hs in Hinv. destruct schema as [|entry schema]; [discriminate|].
  destruct Hinv as (source' & [[Hnone _]|Hsome] & Hconv & _);
    [congruence|].
  rewrite Hsrc in Hsome. inversion Hsome; subst source'. split.
  - intros Hk. destruct (dict_get k gp) as [v|] eqn:Hv; [|congruence].
    apply dict_get_in in Hv.
    destruct (convert_properties_in _ _ _ _ _ Hconv Hv)
      as [[]|(sp & cur & Hsp & _)].
    now exists sp.
  - intros [sp Hsp]. exact (convert_properties_has _ _ _ _ _ Hconv Hsp).
Qed.

Lemma declaration_property_names_witness :
  exists props,
    declaration_properties
      (PDict [("name", PStr "search");
              ("description", PStr "Tool to perform search");
              ("parameters",
               PDict [("type", PStr "object");
                      ("properties",
                       PDict [("q", PDict [("type", PStr "string")]);
                              ("tags",
                               PDict [("type", PStr "array");
                                      ("items",
                                       PDict [("type", PStr "string")])])])])])
    = Some props
    /\ (dict_get "limit" props <> None <->
        exists schema_prop,
          In ("limit", PDict schema_prop)
            [("q", PDict [("type", PStr "Text")]);
             ("limit", PStr "integer");
             ("tags", PDict [("type", PStr "ARRAY")])]).
Proof.
  apply (declaration_property_names sloppy_tool _ _ _ "limit"
           eq_refl eq_refl eq_refl).
Defined.

(** X4.  A declaration has a [required] list exactly when the input schema
    has one that is a list, not empty, of strings only, and then it is that
    list; in every other case the entry is left out. *)
Theorem declaration_required_spec (t : Tool) (decl : pyval) :
  _convert_mcp_tool_to_genai_function t = Ok decl ->
  declaration_required decl =
  match inputSchema t with
  | PDict schema =>
      match dict_get "required" schema with
      | Some (PList (x :: l)) =>
          if all_str (x :: l) then Some (PList (x :: l)) else None
      | _ => None
      end
  | _ => None
  end.
Proof.
  intros Hc. destruct (convert_inv _ _ Hc) as (gp & req & -> & Hinv).
  match goal with
  | |- ?lhs = _ => change lhs with (dict_get "required" req)
  end.
  destruct (inputSchema t) as [| | | | | |schema|];
    try (now destruct Hinv as [_ ->]).
  destruct schema as [|entry schema]; [now destruct Hinv as [_ ->]|].
  destruct Hinv as (source & _ & _ & ->). unfold required_entry.
  remember (entry :: schema) as sch.
  destruct (dict_get "required" sch) as [[| | | | |[|x l]| |]|];
    try reflexivity.
  destruct (all_str (x :: l)); reflexivity.
Qed.

Lemma declaration_required_spec_witness :
  declaration_required
    (PDict [("name", PStr "get_weather");
            ("description", PStr "Weather of a city");
            ("parameters",
             PDict [("type", PStr "object");
                    ("properties",
                     PDict [("city", PDict [("type", PStr "string")])]);
                    ("required", PList [PStr "city"])])]) =
  Some (PList [PStr "city"]).
Proof.
  apply (declaration_required_spec get_weather _ eq_refl).
Defined.

(** X5.  Every property of a declaration comes from a property of the input
    schema that is a mapping, under the same name, and: a property of type
    [array] always carries an [items] entry (the one of that source
    property, or [{type: string}] when it has none), and a property of
    another type never carries one; the description of the source property
    is carried over, and its [enum] only when it is a list. *)
Theorem declaration_property_entries (t : Tool) (decl : pyval) (props : dict)
  (k : string) (v : pyval) :
  _convert_mcp_tool_to_genai_function t = Ok decl ->
  declaration_properties decl = Some props ->
  In (k, v) props ->
  exists schema source schema_prop cur ty,
    inputSchema t = PDict schema
    /\ dict_get "properties" schema = Some (PDict source)
    /\ In (k, PDict schema_prop) source
    /\ v = PDict cur
    /\ dict_get "type" cur = Some (PStr ty)
    /\ (ty = "array" ->
        dict_get "items" cur =
        Some match dict_get "items" schema_prop with
             | Some items => items
             | None => PDict [("type", PStr "string")]
             end)
    /\ (ty <> "array" -> dict_get "items" cur = None)
    /\ dict_get "description" cur = dict_get "description" schema_prop
    /\ dict_get "enum" cur =
       match dict_get "enum" schema_prop with
       | Some (PList l) => Some (PList l)
       | _ => None
       end.
Proof.
  intros Hc Hp Hin.
  destruct (declaration_property_source _ _ _ _ _ Hc Hp Hin)
    as (schema & source & sp & cur & Hs & Hsrc & Hsp & Hcur & ->).
  destruct (convert_property_spec _ _ Hcur) as (_ & Hty & Hd & He & Hi).
  exists schema, source, sp, cur, (translated_type sp). splits; auto.
  - intros Ha. now rewrite Ha in Hi.
  - intros Ha. apply String.eqb_neq in Ha. now rewrite Ha in Hi.
Qed.

Lemma declaration_property_entries_witness :
  exists schema source schema_prop cur ty,
    inputSchema sloppy_tool = PDict schema
    /\ dict_get "properties" schema = Some (PDict source)
    /\ In ("tags", PDict schema_prop) source
    /\ PDict [("type", PStr "array");
              ("items", PDict [("type", PStr "string")])] = PDict cur
    /\ dict_get "type" cur = Some (PStr ty)
    /\ (ty = "array" ->
        dict_get "items" cur =
        Some match dict_get "items" schema_prop with
             | Some items => items
             | None => PDict [("type", PStr "string")]
             end)
    /\ (ty <> "array" -> dict_get "items" cur = None)
    /\ dict_get "description" cur = dict_get "description" schema_prop
    /\ dict_get "enum" cur =
       match dict_get "enum" schema_prop with
       | Some (PList l) => Some (PList l)
       | _ => None
       end.
Proof.
  apply (declaration_property_entries sloppy_tool _ _ "tags"
           (PDict [("type", PStr "array");
                   ("items", PDict [("type", PStr "string")])])
           eq_refl eq_refl).
  right. left. reflexivity.
Defined.

Lemma convert_all_names (ts : list Tool) :
  map declaration_name (convert_all ts) =
  map (fun t => Some (name t)) (filter declared ts).
Proof.
  induction ts as [|t ts IH]; simpl; [reflexivity|].
  unfold declared at 1. destruct (name t =? "") eqn:Hn; simpl; [exact IH|].
  destruct (translatable t) eqn:Ht.
  - destruct (convert_translatable t Ht) as (d & ps & _ & ->). simpl.
    now rewrite IH.
  - destruct (convert_untranslatable t Ht) as (v & attr & ->). exact IH.
Qed.

(** X6.  [prepare_tools_for_llm] declares, in the order of the tools, the
    tools that have a name and whose conversion does not raise, each under
    its own name.  It returns no tool configuration exactly when there is no
    such tool; otherwise the declarations go, all at once, to the
    constructor of [genai_types.Tool]: the configuration holds the one Tool
    it returns, and its exception leaves [prepare_tools_for_llm]. *)
Theorem prepared_declarations (genai_tool : list pyval -> result GenaiTool)
  (ts : list Tool) :
  map declaration_name (convert_all ts) =
  map (fun t => Some (name t)) (filter declared ts)
  /\ (prepare_tools_for_llm genai_tool ts = Ok None <->
      filter declared ts = [])
  /\ (forall cfg,
        prepare_tools_for_llm genai_tool ts = Ok (Some cfg) ->
        exists gemini_tool,
          genai_tool (convert_all ts) = Ok gemini_tool
          /\ tools cfg = [gemini_tool])
  /\ (forall e,
        prepare_tools_for_llm genai_tool ts = Raise e ->
        filter declared ts <> []
        /\ genai_tool (convert_all ts) = Raise e).
Proof.
  pose proof (convert_all_names ts) as Hn.
  assert (Hnil : convert_all ts = [] <-> filter declared ts = []).
  { destruct (convert_all ts), (filter declared ts); simpl in Hn;
      try discriminate; split; intros H; try reflexivity; discriminate. }
  splits.
  - exact Hn.
  - unfold prepare_tools_for_llm. destruct ts as [|t ts]; [now split|].
    destruct (convert_all (t :: ts)) as [|d ds] eqn:Hc.
    + split; [intros _; now apply Hnil|reflexivity].
    + split.
      * destruct (genai_tool (d :: ds)); discriminate.
      * intros H. apply Hnil in H. discriminate.
  - intros cfg. unfold prepare_tools_for_llm. destruct ts as [|t ts];
      [discriminate|].
    destruct (convert_all (t :: ts)) as [|d ds]; [discriminate|].
    destruct (genai_tool (d :: ds)) as [g|e]; [|discriminate].
    cbn [bind]. intros H; inversion H. now exists g.
  - intros e. unfold prepare_tools_for_llm. destruct ts as [|t ts];
      [discriminate|].
    destruct (convert_all (t :: ts)) as [|d ds] eqn:Hc; [discriminate|].
    destruct (genai_tool (d :: ds)) as [g|e'] eqn:Hg; [discriminate|].
    cbn [bind]. intros H; inversion H; subst e'. split; [|reflexivity].
    intros Hf. apply Hnil in Hf. discriminate.
Qed.

(** A constructor that refuses an [items] entry that is no mapping, on the
    declaration of [tags_tool]. *)
Lemma prepared_declarations_witness :
  filter declared [get_weather; tags_tool] <> []
  /\ strict_tool (convert_all [get_weather; tags_tool]) =
     Raise validation_error.
Proof.
  apply (proj2 (proj2 (proj2 (prepared_declarations strict_tool
                                [get_weather; tags_tool])))).
  reflexivity.
Defined.

(** ** Service setup and dispatch *)



Lemma setup_loop_ok_inv (connect : string -> result ClientSession)
  (names : list string) :
  forall eng eng',
  setup_loop connect names eng = (eng', Ok tt) ->
  forall n, In n names ->
    exists sess ts, connect n = Ok sess /\ list_tools sess AtSetup = Ok ts.
Proof.
  induction names as [|m names IH]; intros eng eng' Hrun n Hn; simpl in *;
    [destruct Hn|].
  destruct (connect m) as [sess|e] eqn:Hm; [|discriminate].
  unfold get_tools in Hrun. cbn [session] in Hrun.
  destruct (list_tools sess AtSetup) as [ts|e] eqn:Hts; [|discriminate].
  destruct Hn as [<-|Hn]; [now exists sess, ts|].
  exact (IH _ _ Hrun n Hn).
Qed.

Lemma dict_set_not_nil {V : Type} (k : string) (v : V)
  (d : list (string * V)) : dict_set k v d <> [].
Proof.
  destruct d as [|[k0 v0] d]; simpl; [discriminate|].
  now destruct (k0 =? k).
Qed.

Lemma setup_loop_state (connect : string -> result ClientSession)
  (names : list string) :
  forall eng eng' r,
  setup_loop connect names eng = (eng', r) ->
  workflow_name eng' = workflow_name eng
  /\ workflow_config eng' = workflow_config eng
  /\ (mcp_services eng <> [] -> mcp_services eng' <> [])
  /\ (r = Ok tt -> names <> [] -> mcp_services eng' <> []).
Proof.
  induction names as [|n names IH]; intros eng eng' r Hrun; simpl in Hrun.
  - inversion Hrun; subst. now splits.
  - destruct (connect n) as [sess|e].
    + destruct (get_tools _ AtSetup) as [ts|e].
      * destruct (IH _ _ _ Hrun) as (H1 & H2 & H3 & H4). simpl in *.
        splits; auto; intros; apply H3, dict_set_not_nil.
      * inversion Hrun; subst. simpl.
        splits; auto; [intros _; apply dict_set_not_nil|discriminate].
    + inversion Hrun; subst. splits; auto. discriminate.
Qed.

Lemma setup_loop_tools (connect : string -> result ClientSession)
  (names : list string) :
  forall eng eng',
  setup_loop connect names eng = (eng', Ok tt) ->
  all_mcp_tools eng' =
  (all_mcp_tools eng ++ flat_map (setup_tools connect) names)%list.
Proof.
  induction names as [|n names IH]; intros eng eng' Hrun; simpl in *.
  - inversion Hrun; subst. now rewrite app_nil_r.
  - unfold setup_tools at 1. destruct (connect n) as [sess|e]; [|discriminate].
    unfold get_tools in Hrun. cbn [session] in Hrun.
    destruct (list_tools sess AtSetup) as [ts|e]; [|discriminate].
    rewrite (IH _ _ Hrun). simpl. now rewrite <- app_assoc.
Qed.

Lemma first_declaring_some (connect : string -> result ClientSession)
  (occ : occasion) (tool_name : string) (names : list string) :
  (forall n sess, In n names -> connect n = Ok sess ->
     exists b, declares occ tool_name sess = Ok b) ->
  (exists n sess,
     In n names /\ connect n = Ok sess
     /\ declares occ tool_name sess = Ok true) ->
  exists service,
    first_declaring connect occ tool_name names = Ok (Some service)
    /\ declares occ tool_name (session service) = Ok true
    /\ In (server_name service) names
    /\ connect (server_name service) = Ok (session service).
Proof.
  induction names as [|m names IH]; intros Hall (n & sess & Hn & Hc & Hd);
    [destruct Hn|]. simpl.
  assert (Hrest : In n names ->
            exists service,
              first_declaring connect occ tool_name names = Ok (Some service)
              /\ declares occ tool_name (session service) = Ok true
              /\ (m = server_name service \/ In (server_name service) names)
              /\ connect (server_name service) = Ok (session service)).
  { intros Hin. destruct IH as (s & H1 & H2 & H3 & H4).
    - intros k sk Hk. apply Hall. now right.
    - now exists n, sess.
    - exists s. splits; auto. }
  destruct (connect m) as [sm|e] eqn:Hm.
  - destruct (Hall m sm (or_introl eq_refl) Hm) as [[] Hdm]; rewrite Hdm;
      cbn [bind].
    + eexists. splits; [reflexivity|exact Hdm|now left|exact Hm].
    + destruct Hn as [<-|Hn]; [congruence|]. now apply Hrest.
  - destruct Hn as [<-|Hn]; [congruence|]. now apply Hrest.
Qed.



(** X8.  After a successful [setup_services] the tools offered to the model
    are the tools the servers listed during the setup, in the order of the
    workflow; and on an occasion on which every server lists the tools it
    listed during the setup, every one of them resolves to a registered
    service that declares it. *)
Theorem advertised_tools_resolve
  (connect : string -> result ClientSession) (occ : occasion) (wname : string)
  (cfg : WorkflowConfig) (eng' : WorkflowEngine) :
  setup_services connect (new_engine wname cfg) = (eng', Ok tt) ->
  all_mcp_tools eng' = flat_map (setup_tools connect) (mcp_servers_used cfg)
  /\ ((forall n sess, In n (mcp_servers_used cfg) -> connect n = Ok sess ->
         list_tools sess occ = list_tools sess AtSetup) ->
      forall t, In t (all_mcp_tools eng') ->
        exists service,
          find_service occ (name t) (mcp_services eng') = Ok (Some service)
          /\ declares occ (name t) (session service) = Ok true
          /\ In (server_name service) (mcp_servers_used cfg)).
Proof.
  intros Hrun.
  assert (Htools := setup_loop_tools connect _ _ _ Hrun). simpl in Htools.
  split; [exact Htools|]. intros Hstable t Ht.
  rewrite (setup_services_resolution _ _ _ _ _ (name t) Hrun).
  rewrite Htools in Ht. apply in_flat_map in Ht as (n & Hn & Hin).
  unfold setup_tools in Hin.
  destruct (connect n) as [sess|e] eqn:Hc; [|destruct Hin].
  destruct (list_tools sess AtSetup) as [ts|e] eqn:Hts; [|destruct Hin].
  destruct (first_declaring_some connect occ (name t) (mcp_servers_used cfg))
    as (service & H1 & H2 & H3 & _).
  - intros k sk Hk Hck.
    destruct (setup_loop_ok_inv _ _ _ _ Hrun k Hk) as (sk' & tsk & Hck' & Htk).
    rewrite Hck in Hck'. inversion Hck'; subst sk'.
    unfold declares. rewrite (Hstable k sk Hk Hck), Htk. now eexists.
  - exists n, sess. splits; auto. unfold declares.
    rewrite (Hstable n sess Hn Hc), Hts. cbn [bind]. f_equal.
    apply existsb_exists. exists t. split; [exact Hin|apply String.eqb_refl].
  - now exists service.
Qed.

Lemma advertised_tools_resolve_witness :
  exists service,
    find_service (AtTurn 2) (name get_weather)
      (mcp_services (demo_engine ["weather"; "backup"] "{query}" 3)) =
    Ok (Some service)
    /\ declares (AtTurn 2) (name get_weather) (session service) = Ok true
    /\ In (server_name service) ["weather"; "backup"].
Proof.
  apply (proj2 (advertised_tools_resolve demo_connect (AtTurn 2) "demo"
                  (demo_config ["weather"; "backup"] "{query}" 3) _ eq_refl)).
  - intros n sess [<-|[<-|[]]] H; inversion H; reflexivity.
  - left. reflexivity.
Defined.

(** X9.  On every occasion, the dispatch finds no service exactly when
    every registered service lists its tools and none lists a tool of the
    requested name; a service it finds is a registered one that lists the
    tool; and an exception of the dispatch is the exception of the listing
    of a registered service. *)
Theorem find_service_spec (occ : occasion) (tool_name : string)
  (services : list (string * MCPService)) :
  (find_service occ tool_name services = Ok None <->
   forall k s, In (k, s) services ->
     declares occ tool_name (session s) = Ok false)
  /\ (forall s, find_service occ tool_name services = Ok (Some s) ->
        declares occ tool_name (session s) = Ok true
        /\ exists k, In (k, s) services)
  /\ (forall e, find_service occ tool_name services = Raise e ->
        exists k s, In (k, s) services
          /\ list_tools (session s) occ = Raise e).
Proof.
  induction services as [|[k0 s0] services (IHn & IHs & IHr)].
  - simpl. splits; try discriminate. split; [intros _ k s []|reflexivity].
  - rewrite find_service_cons.
    destruct (declares occ tool_name (session s0)) as [[]|e0] eqn:Hd.
    + splits.
      * split; [discriminate|]. intros H.
        rewrite (H k0 s0 (or_introl eq_refl)) in Hd. discriminate.
      * intros s Hs. inversion Hs; subst. split; [exact Hd|].
        exists k0. now left.
      * discriminate.
    + splits.
      * split.
        -- intros Hn k s [Heq|Hin]; [now inversion Heq; subst|].
           now apply (proj1 IHn Hn k s).
        -- intros H. apply IHn. intros k s Hin. apply (H k s). now right.
      * intros s Hs. destruct (IHs s Hs) as [H1 [k Hk]]. split; [exact H1|].
        exists k. now right.
      * intros e He. destruct (IHr e He) as (k & s & Hin & Hl).
        exists k, s. split; [now right|exact Hl].
    + splits.
      * split; [discriminate|]. intros H.
        rewrite (H k0 s0 (or_introl eq_refl)) in Hd. discriminate.
      * discriminate.
      * intros e He. inversion He; subst e0. exists k0, s0.
        split; [now left|]. unfold declares in Hd.
        destruct (list_tools (session s0) occ); [discriminate|].
        cbn [bind] in Hd. now inversion Hd.
Qed.

Lemma find_service_spec_witness :
  declares (AtTurn 0) "get_weather"
    (session {| server_name := "weather";
                session := session_of get_weather (Ok (PStr "sunny")) |}) =
  Ok true
  /\ exists k,
       In (k, {| server_name := "weather";
                 session := session_of get_weather (Ok (PStr "sunny")) |})
         (mcp_services (demo_engine ["weather"; "backup"] "{query}" 3)).
Proof.
  apply (proj1 (proj2 (find_service_spec (AtTurn 0) "get_weather"
                         (mcp_services
                            (demo_engine ["weather"; "backup"] "{query}" 3))))).
  reflexivity.
Defined.

(** ** Blank strings *)

Lemma rstrip_empty_iff (s : string) :
  rstrip s = "" <-> string_forall is_space s = true.
Proof.
  induction s as [|c s IH]; simpl; [now split|].
  destruct (rstrip s) as [|c' r] eqn:Hr.
  - destruct (is_space c); simpl.
    + split; [intros _; now apply IH|reflexivity].
    + split; discriminate.
  - split; [discriminate|]. intros H. apply andb_true_iff in H as [_ H].
    apply IH in H. discriminate.
Qed.

Lemma lstrip_forall (s : string) :
  string_forall is_space (lstrip s) = string_forall is_space s.
Proof.
  induction s as [|c s IH]; simpl; [reflexivity|].
  destruct (is_space c) eqn:Hc; simpl; [exact IH|now rewrite Hc].
Qed.

Lemma strip_empty_iff (s : string) :
  strip s = "" <-> string_forall is_space s = true.
Proof. unfold strip. now rewrite rstrip_empty_iff, lstrip_forall. Qed.

Lemma string_forall_app (f : ascii -> bool) (a b : string) :
  string_forall f (a ++ b) = string_forall f a && string_forall f b.
Proof.
  induction a as [|c a IH]; simpl; [reflexivity|].
  now rewrite IH, andb_assoc.
Qed.

Lemma join_forall (f : ascii -> bool) (l : list string) :
  string_forall f (join l) = forallb (string_forall f) l.
Proof.
  unfold join. induction l as [|x l IH]; [reflexivity|].
  destruct l as [|y l].
  - simpl. now rewrite andb_true_r.
  - change (String.concat "" (x :: y :: l))
      with (x ++ "" ++ String.concat "" (y :: l)).
    rewrite string_forall_app.
    change ("" ++ String.concat "" (y :: l)) with (String.concat "" (y :: l)).
    now rewrite IH.
Qed.

Lemma any_nonblank_join (l : list string) :
  any_nonblank l = true -> strip (join l) <> "".
Proof.
  intros H Hs. apply strip_empty_iff in Hs. rewrite join_forall in Hs.
  apply existsb_exists in H as (p & Hp & Hnb).
  rewrite forallb_forall in Hs. specialize (Hs p Hp).
  apply strip_empty_iff in Hs. rewrite Hs in Hnb. discriminate.
Qed.

Lemma final_turn_parts_nonblank (texts : list string)
  (resp : GenerateContentResponse) :
  any_nonblank (final_turn_parts [] texts resp) = true.
Proof.
  unfold final_turn_parts.
  set (l := match texts with
            | [] =>
                match response_text resp with
                | Some t =>
                    if negb (any_nonblank []) && negb (t =? "")
                       && negb (strip t =? "")
                    then ([] ++ [t])%list else []
                | None => []
                end
            | _ :: _ => ([] ++ texts)%list
            end).
  destruct l as [|x l]; [reflexivity|].
  destruct (any_nonblank (x :: l)) eqn:Ha; simpl negb; cbv iota; [exact Ha|].
  unfold any_nonblank. rewrite existsb_app. simpl. apply orb_true_r.
Qed.

Lemma break_parts_nonblank (wname : string)
  (r : result GenerateContentResponse) :
  malformed r = false ->
  strip (join (break_parts wname r)) <> "".
Proof.
  destruct r as [resp|e]; cbn [break_parts malformed]; intros Hm.
  - destruct (candidates resp) as [|cand rest]; [discriminate|].
    destruct (first_parts resp) as [ps|]; [|discriminate].
    apply any_nonblank_join, final_turn_parts_nonblank.
  - rewrite join_single, strip_marker. discriminate.
Qed.

(** ** More on [process_user_query] *)

Lemma middle_in_front {A : Type} (l1 l2 calls : list A) (r last : A) :
  (l1 ++ r :: l2)%list = (calls ++ [last])%list -> l2 <> [] -> In r calls.
Proof.
  intros H Hl2. destruct (exists_last Hl2) as (l2' & x & ->).
  change (l1 ++ r :: l2' ++ [x])%list with (l1 ++ (r :: l2') ++ [x])%list in H.
  rewrite app_assoc in H. apply app_inj_tail in H as [<- _].
  apply in_or_app. right. now left.
Qed.

Lemma format_scan_prefix (query : string) (a : string) :
  forall rest out, brace_free a = true ->
  format_scan (a ++ rest) None out query =
  format_scan rest None (out ++ a) query.
Proof.
  induction a as [|c a IH]; intros rest out H; simpl in *.
  - f_equal. induction out as [|x out IHo]; simpl; [reflexivity|].
    now rewrite <- IHo.
  - apply andb_true_iff in H as [Hc Ha].
    apply negb_true_iff, orb_false_iff in Hc as [-> ->].
    rewrite (IH _ _ Ha). now rewrite append_snoc.
Qed.

Lemma append_assoc_s (a b c : string) : (a ++ b) ++ c = a ++ b ++ c.
Proof. induction a as [|x a IH]; simpl; [reflexivity|now rewrite IH]. Qed.

Section MoreQuery.

Variable generate_response :
  nat -> list Content -> option GenerateContentConfig ->
  result GenerateContentResponse.
Variable genai_tool : list pyval -> result GenaiTool.
Variable format_exc : exn -> string.

Local Abbreviation query := (process_user_query generate_response genai_tool format_exc).
Local Abbreviation turns := (run_turns generate_response format_exc).
Local Abbreviation body := (turn_body generate_response format_exc).
Local Abbreviation loop := (turn_loop generate_response format_exc).

Lemma alternates_last (eng : WorkflowEngine) (turn : nat) (complete : Prop)
  (r0 : result GenerateContentResponse) :
  (continues r0 = true -> ~ complete) ->
  alternates format_exc eng turn complete (break_history r0) [r0].
Proof.
  intros Hnc. unfold alternates. splits.
  - unfold break_history. destruct r0 as [resp|e]; [|simpl; lia].
    destruct (candidates resp) as [|cand rest]; [simpl; lia|].
    destruct (content cand); simpl; lia.
  - intros i resp cand rest c0 Hi Hc Hcc.
    destruct i as [|i]; [|destruct i; discriminate].
    simpl in Hi. inversion Hi; subst r0. unfold break_history.
    now rewrite Hc, Hcc.
  - intros i r Hi Hr [Hlt|Hcomp].
    + destruct i as [|i]; simpl in Hlt; [lia|]. destruct i; discriminate.
    + destruct i as [|i]; [|destruct i; discriminate].
      simpl in Hi. inversion Hi; subst r0. now destruct (Hnc Hr).
Qed.

Lemma alternates_cons (eng : WorkflowEngine) (turn : nat) (complete : Prop)
  (suffix : list Content) (new : list (result GenerateContentResponse))
  (resp : GenerateContentResponse) (cand : Candidate) (rest : list Candidate)
  (c0 : Content) (ps : list Part) (fc : FunctionCall) (payload : dict) :
  candidates resp = cand :: rest ->
  content cand = Some c0 ->
  parts c0 = Some ps ->
  first_function_call ps fc ->
  tool_result_for_llm format_exc eng turn fc = Ok payload ->
  alternates format_exc eng (S turn) complete suffix new ->
  alternates format_exc eng turn complete
    (c0 :: {| parts := Some [from_function_response (fc_name fc) payload];
              role := "user" |} :: suffix)
    (Ok resp :: new).
Proof.
  intros Hcs Hcc Hps Hfc Hp (Hlen & Hmodel & Hresp). unfold alternates. splits.
  - simpl. lia.
  - intros i resp' cand' rest' c' Hi Hc' Hcc'. destruct i as [|i].
    + simpl in Hi. inversion Hi; subst resp'. rewrite Hcs in Hc'.
      inversion Hc'; subst cand'. rewrite Hcc in Hcc'. now inversion Hcc'.
    + replace (2 * S i) with (S (S (2 * i))) by lia. simpl.
      now apply (Hmodel i resp' cand' rest').
  - intros i r Hi Hcont Hlast. destruct i as [|i].
    + simpl in Hi. inversion Hi; subst r.
      exists resp, ps, fc, payload. rewrite Nat.add_0_r.
      splits; auto. unfold first_parts. now rewrite Hcs, Hcc.
    + simpl in Hi.
      destruct (Hresp i r Hi Hcont) as (resp' & ps' & fc' & pl' & H).
      { destruct Hlast as [Hlt|Hc]; [left; simpl in Hlt; lia|now right]. }
      exists resp', ps', fc', pl'.
      replace (turn + S i) with (S turn + i) by lia.
      replace (2 * S i + 1) with (S (S (2 * i + 1))) by lia.
      exact H.
Qed.

(** The conversation of a run of the loop. *)
Lemma turn_loop_alternates (eng : WorkflowEngine)
  (cfg : option GenerateContentConfig) (n : nat) :
  forall turn st c st',
  final_response_parts st = [] ->
  loop eng cfg n turn st = (c, st') ->
  exists suffix new,
    conversation_history st' = (conversation_history st ++ suffix)%list
    /\ llm_log st' = (llm_log st ++ new)%list
    /\ alternates format_exc eng turn (c = Continue) suffix new.
Proof.
  induction n as [|n IH]; intros turn st c st' Hf Hrun; cbn [turn_loop] in Hrun.
  { inversion Hrun; subst. exists [], []. rewrite !app_nil_r.
    splits; auto. unfold alternates.
    splits; auto; intros i; destruct i; discriminate. }
  destruct (continues (generate_response turn (conversation_history st) cfg))
    eqn:Hc0.
  - destruct (continues_inv _ Hc0)
      as (resp & cand & rest & c0 & ps & fc & Hr & Hcs & Hcc & Hps & Hfc).
    destruct (tool_result_for_llm format_exc eng turn fc) as [payload|e] eqn:Hp.
    + rewrite (turn_body_continue _ _ _ _ _ _ _ _ _ _ _ _ _ Hr Hcs Hcc Hps Hfc Hp)
        in Hrun.
      apply IH in Hrun; [|exact Hf].
      destruct Hrun as (suffix & new & Hh & Hl & Halt).
      cbn [conversation_history llm_log] in Hh, Hl.
      eexists (c0 :: _ :: suffix), (Ok resp :: new).
      rewrite Hh, Hl, <- !app_assoc. splits; try reflexivity.
      now apply (alternates_cons _ _ _ _ _ _ cand rest _ ps).
    + rewrite (turn_body_listing_fails _ _ _ _ _ _ _ _ _ _ _ _ _ Hr Hcs Hcc Hps
                 Hfc Hp) in Hrun.
      inversion Hrun; subst c st'. cbn [conversation_history llm_log].
      exists [c0], [Ok resp]. splits; auto.
      replace [c0] with (break_history (Ok resp))
        by (unfold break_history; now rewrite Hcs, Hcc).
      apply alternates_last. discriminate.
  - destruct (malformed (generate_response turn (conversation_history st) cfg))
      eqn:Hm0.
    + destruct (turn_body_malformed generate_response format_exc eng cfg turn
                  st Hm0) as (e & Hb & _).
      rewrite Hb in Hrun. inversion Hrun; subst c st'.
      cbn [conversation_history llm_log]. do 2 eexists.
      splits; try reflexivity. apply alternates_last. discriminate.
    + rewrite (turn_body_break generate_response format_exc eng cfg turn
                 st Hc0 Hm0 Hf) in Hrun.
      inversion Hrun; subst c st'.
      cbn [conversation_history llm_log]. do 2 eexists.
      splits; try reflexivity. apply alternates_last. discriminate.
Qed.

Lemma query_returned_inv (eng : WorkflowEngine) (user_query s : string) :
  services_missing eng = false ->
  answer (query eng user_query) = Returned s ->
  exists prompt cfg,
    format (initial_prompt_template (workflow_config eng)) user_query =
      Formatted prompt
    /\ prepare_tools_for_llm genai_tool (all_mcp_tools eng) = Ok cfg.
Proof.
  unfold services_missing, process_user_query. intros Hm.
  destruct (mcp_services eng), (mcp_servers_used (workflow_config eng));
    try discriminate;
    destruct (format _ _) as [prompt| |]; try discriminate;
    destruct (prepare_tools_for_llm _ _) as [cfg|]; try discriminate;
    intros _; now exists prompt, cfg.
Qed.

Lemma query_guarded (eng : WorkflowEngine) (user_query : string) :
  services_missing eng = true ->
  query eng user_query =
  {| answer := Returned not_initialized_message;
     history := []; llm_calls := [] |}.
Proof.
  unfold services_missing, process_user_query.
  now destruct (mcp_services eng), (mcp_servers_used (workflow_config eng)).
Qed.

(** X10.  Every gateway outcome but the last one of a query is a response
    with a function call: after a failure of the gateway, a response
    without candidates or a response without function call, the gateway is
    not called again. *)
Theorem no_call_after_final_outcome (eng : WorkflowEngine)
  (user_query : string) (before after : list (result GenerateContentResponse))
  (r : result GenerateContentResponse) :
  llm_calls (query eng user_query) = (before ++ r :: after)%list ->
  after <> [] ->
  continues r = true.
Proof.
  intros Hcalls Hafter.
  destruct (query_cases generate_response genai_tool format_exc eng user_query)
    as [(Hnil & _)|(Hm & prompt & cfg & Hf & Hp)].
  { rewrite Hnil in Hcalls. now destruct before. }
  destruct (query_run_shape generate_response genai_tool format_exc
              _ _ _ _ Hm Hf Hp)
    as [(calls & Hc & _ & Hall & _)
       |[(calls & last & Hc & _ & Hall & _)
        |(calls & last & e & Hc & _ & Hall & _)]];
    rewrite Forall_forall in Hall; apply Hall.
  - subst calls. rewrite Hcalls. apply in_or_app. right. now left.
  - rewrite Hcalls in Hc. exact (middle_in_front _ _ _ _ _ Hc Hafter).
  - rewrite Hcalls in Hc. exact (middle_in_front _ _ _ _ _ Hc Hafter).
Qed.

(** X11.  When a query returns and every response of the gateway carried a
    function call, the gateway was called [max_turns] times and the answer
    is the marker [Max interaction turns reached. No final text generated.]:
    the text of the turns that call a tool is not kept, so the buffer is
    empty when the budget runs out. *)
Theorem budget_exhausted (eng : WorkflowEngine) (user_query s : string) :
  services_missing eng = false ->
  answer (query eng user_query) = Returned s ->
  Forall (fun r => continues r = true) (llm_calls (query eng user_query)) ->
  length (llm_calls (query eng user_query)) = Z.to_nat (max_turns eng)
  /\ s = "[Max interaction turns reached. No final text generated.]".
Proof.
  intros Hm Ha Hall.
  destruct (query_returned_inv _ _ _ Hm Ha) as (prompt & cfg & Hf & Hp).
  destruct (query_run_shape generate_response genai_tool format_exc
              _ _ _ _ Hm Hf Hp)
    as [(calls & Hc & Hlen & _ & Ha')
       |[(calls & last & Hc & _ & _ & Hlast & _)
        |(calls & last & e & _ & _ & _ & _ & Ha')]].
  - subst calls. rewrite Ha' in Ha. inversion Ha. now split.
  - rewrite Hc in Hall. apply Forall_app in Hall as [_ Hall].
    inversion Hall; subst. congruence.
  - rewrite Ha' in Ha. discriminate.
Qed.

(** X12.  A query never returns the empty string: the text of the final
    turn has a character that is no blank, and every other way out of the
    loop puts a marker in the answer. *)
Theorem answer_never_empty (eng : WorkflowEngine) (user_query s : string) :
  answer (query eng user_query) = Returned s -> s <> "".
Proof.
  intros Ha.
  destruct (query_cases generate_response genai_tool format_exc eng user_query)
    as [(_ & _ & Hs)|(Hm & prompt & cfg & Hf & Hp)].
  { rewrite (Hs s Ha). discriminate. }
  destruct (query_run_shape generate_response genai_tool format_exc
              _ _ _ _ Hm Hf Hp)
    as [(calls & _ & _ & _ & Ha')
       |[(calls & last & _ & _ & _ & _ & Hmal & Ha')
        |(calls & last & e & _ & _ & _ & _ & Ha')]];
    rewrite Ha' in Ha; inversion Ha; [discriminate|].
  now apply break_parts_nonblank.
Qed.

(** X13.  When the last response has no function call and no text Part with
    a character that is no blank, the answer is the text attribute of the
    response, trimmed, when that has such a character, and the marker
    [AI model provided no further text or actions.] otherwise. *)
Theorem final_turn_without_text (eng : WorkflowEngine) (user_query : string)
  (resp : GenerateContentResponse) (cand : Candidate) (rest : list Candidate)
  (c : Content) (ps : list Part) :
  last_opt (llm_calls (query eng user_query)) = Some (Ok resp) ->
  candidates resp = cand :: rest ->
  content cand = Some c ->
  parts c = Some ps ->
  has_function_call ps = false ->
  nonblank_texts ps = [] ->
  answer (query eng user_query) =
  Returned match response_text resp with
           | Some t =>
               if strip t =? ""
               then "[AI model provided no further text or actions.]"
               else strip t
           | None => "[AI model provided no further text or actions.]"
           end.
Proof.
  intros Hlast Hc Hcc Hps Hfc Htexts.
  assert (Hfp : first_parts resp = Some ps).
  { unfold first_parts. now rewrite Hc, Hcc. }
  assert (Hcont : continues (Ok resp) = false).
  { simpl. now rewrite Hfp. }
  assert (Hmal : malformed (Ok resp) = false).
  { simpl. now rewrite Hc, Hfp. }
  destruct (last_opt_inv _ _ Hlast) as [l Hl].
  rewrite (query_last_outcome _ _ _ _ _ (Ok resp)); auto.
  - cbn [break_parts]. rewrite Hc, Hfp, Htexts.
    unfold final_turn_parts.
    destruct (response_text resp) as [t|]; [|reflexivity].
    destruct (t =? "") eqn:Ht.
    + apply String.eqb_eq in Ht. subst t. reflexivity.
    + cbn [any_nonblank existsb negb andb].
      destruct (strip t =? "") eqn:Hs; cbn [negb app]; [reflexivity|].
      unfold any_nonblank. cbn [existsb]. rewrite Hs. reflexivity.
  - rewrite Hl. apply in_or_app. right. now left.
Qed.

(** X14.  The Parts that follow the first function call of a Turn are not
    looked at: neither their text nor their function calls change what the
    turn does. *)
Theorem parts_after_call_ignored (before after : list Part) (p : Part)
  (fc : FunctionCall) (acc : list string) :
  function_call p = Some fc ->
  scan_parts (before ++ p :: after) acc = scan_parts (before ++ [p]) acc.
Proof.
  intros Hp. revert acc. induction before as [|q before IH]; intros acc; simpl.
  - now rewrite Hp.
  - destruct (function_call q); [reflexivity|]. apply IH.
Qed.

(** X15.  The conversation of a query that reaches the turn loop opens with
    the user Turn of the formatted prompt, and then alternates: the Turn of
    the model of the gateway outcome of index [i] is the Turn of index
    [1 + 2 * i], and, unless an exception ends the query at that outcome,
    the Turn right after it is the user Turn with the function response to
    its first function call, under the name of that call; nothing else is
    in the conversation.  The first call of the gateway is made on the
    prompt alone, with the tool configuration. *)
Theorem conversation_growth (eng : WorkflowEngine)
  (user_query prompt : string) (cfg : option GenerateContentConfig) :
  services_missing eng = false ->
  format (initial_prompt_template (workflow_config eng)) user_query =
    Formatted prompt ->
  prepare_tools_for_llm genai_tool (all_mcp_tools eng) = Ok cfg ->
  exists suffix,
    history (query eng user_query) =
      {| parts := Some [text_part prompt]; role := "user" |} :: suffix
    /\ length suffix <= 2 * length (llm_calls (query eng user_query))
    /\ (forall i resp cand rest c,
          nth_error (llm_calls (query eng user_query)) i = Some (Ok resp) ->
          candidates resp = cand :: rest ->
          content cand = Some c ->
          nth_error suffix (2 * i) = Some c)
    /\ (forall i r,
          nth_error (llm_calls (query eng user_query)) i = Some r ->
          continues r = true ->
          S i < length (llm_calls (query eng user_query))
          \/ (exists s, answer (query eng user_query) = Returned s) ->
          exists resp ps fc payload,
            r = Ok resp
            /\ first_parts resp = Some ps
            /\ first_function_call ps fc
            /\ tool_result_for_llm format_exc eng i fc = Ok payload
            /\ nth_error suffix (2 * i + 1) =
               Some {| parts :=
                         Some [from_function_response (fc_name fc) payload];
                       role := "user" |})
    /\ ((0 < max_turns eng)%Z ->
        hd_error (llm_calls (query eng user_query)) =
        Some (generate_response 0
                [{| parts := Some [text_part prompt]; role := "user" |}] cfg)).
Proof.
  intros Hm Hf Hp.
  pose proof (query_first_call generate_response genai_tool format_exc
                _ _ _ _ Hm Hf Hp) as Hfirst.
  rewrite (query_formatted _ _ _ _ _ _ _ Hm Hf Hp) in *.
  cbn [history llm_calls answer] in *.
  destruct (turns eng cfg prompt (Z.to_nat (max_turns eng))) as [c st] eqn:Hrun.
  cbn [fst snd] in *. unfold run_turns in Hrun.
  destruct (turn_loop_alternates eng cfg _ 0 (initial_state prompt) _ _
              eq_refl Hrun)
    as (suffix & new & Hh & Hl & Hlen & Hmodel & Hresp).
  cbn [initial_state conversation_history llm_log app] in Hh, Hl.
  exists suffix. rewrite Hh, Hl.
  splits; auto; [|intros Hpos; rewrite <- Hl; exact (Hfirst Hpos)].
  intros i r Hi Hcont Hlast.
  apply (Hresp i r Hi Hcont). destruct Hlast as [Hlt|[s Hs]]; [now left|].
  destruct c as [| |e]; [now right| |discriminate].
  left. apply turn_loop_shape in Hrun; [|reflexivity].
  destruct Hrun as (calls & r' & Hlog & _ & _ & Hr' & _).
  rewrite Hl in Hlog. cbn [initial_state llm_log app] in Hlog. subst new.
  rewrite length_app. simpl.
  destruct (Nat.lt_ge_cases i (length calls)) as [Hlt|Hge]; [lia|].
  rewrite nth_error_app2 in Hi by exact Hge.
  destruct (i - length calls) as [|k]; simpl in Hi.
  - inversion Hi; subst r'. congruence.
  - destruct k; discriminate.
Qed.

(** X16.  When the first response of the gateway carries no function call
    (or the first call fails), the query makes that one call only,
    whatever the budget of turns, and the conversation holds the prompt and
    the Turn of the model, if the response has one. *)
Theorem single_call_without_function_call (eng : WorkflowEngine)
  (user_query prompt : string) (cfg : option GenerateContentConfig) :
  services_missing eng = false ->
  format (initial_prompt_template (workflow_config eng)) user_query =
    Formatted prompt ->
  prepare_tools_for_llm genai_tool (all_mcp_tools eng) = Ok cfg ->
  (0 < max_turns eng)%Z ->
  let first :=
    generate_response 0
      [{| parts := Some [text_part prompt]; role := "user" |}] cfg in
  continues first = false ->
  llm_calls (query eng user_query) = [first]
  /\ history (query eng user_query) =
     {| parts := Some [text_part prompt]; role := "user" |}
     :: break_history first.
Proof.
  intros Hm Hf Hp Hpos first Hfirst.
  rewrite (query_formatted _ _ _ _ _ _ _ Hm Hf Hp).
  cbn [history llm_calls].
  destruct (Z.to_nat (max_turns eng)) as [|n] eqn:Hn; [lia|].
  unfold run_turns. cbn [turn_loop].
  destruct (malformed first) eqn:Hmal.
  - destruct (turn_body_malformed generate_response format_exc eng cfg 0
                (initial_state prompt) Hmal) as (e & -> & _).
    now split.
  - rewrite (turn_body_break generate_response format_exc eng cfg 0
               (initial_state prompt) Hfirst Hmal eq_refl).
    now split.
Qed.

End MoreQuery.

Lemma no_call_after_final_outcome_witness :
  continues (Ok (response_of checking_turn)) = true.
Proof.
  apply (no_call_after_final_outcome (scripted weather_script) plain_tool
           no_traceback (demo_engine ["weather"] "Q: {query}" 5) "hi" []
           [Ok (response_of sunny_turn)]).
  - reflexivity.
  - discriminate.
Defined.

Lemma budget_exhausted_witness :
  length (llm_calls (process_user_query (scripted weather_script) plain_tool
                       no_traceback
                       (demo_engine ["weather"] "Q: {query}" 1) "hi")) =
  Z.to_nat (max_turns (demo_engine ["weather"] "Q: {query}" 1))
  /\ "[Max interaction turns reached. No final text generated.]" =
     "[Max interaction turns reached. No final text generated.]".
Proof.
  apply (budget_exhausted (scripted weather_script) plain_tool no_traceback
           (demo_engine ["weather"] "Q: {query}" 1) "hi").
  - reflexivity.
  - reflexivity.
  - repeat constructor.
Defined.

Lemma answer_never_empty_witness : "It is sunny." <> "".
Proof.
  apply (answer_never_empty (scripted weather_script) plain_tool no_traceback
           (demo_engine ["weather"] "Q: {query}" 5) "hi").
  reflexivity.
Defined.

Lemma final_turn_without_text_witness :
  answer (process_user_query (scripted [Ok blank_response]) plain_tool
            no_traceback (demo_engine [] "Q: {query}" 3) "hi") =
  Returned "fallback".
Proof.
  apply (final_turn_without_text (scripted [Ok blank_response]) plain_tool
           no_traceback (demo_engine [] "Q: {query}" 3) "hi" blank_response
           {| content := Some (model_turn [text_part "  "]) |} []
           (model_turn [text_part "  "]) [text_part "  "]);
    reflexivity.
Defined.

Lemma parts_after_call_ignored_witness :
  scan_parts ([text_part "Let me check."]
              ++ call_part "get_weather" []
              :: [text_part "later"; call_part "get_time" []]) [] =
  scan_parts ([text_part "Let me check."] ++ [call_part "get_weather" []]) [].
Proof.
  apply (parts_after_call_ignored [text_part "Let me check."]
           [text_part "later"; call_part "get_time" []]
           (call_part "get_weather" []) weather_call []).
  reflexivity.
Defined.

Lemma conversation_growth_witness :
  let run := process_user_query (scripted weather_script) plain_tool
               no_traceback (demo_engine ["weather"] "Q: {query}" 5) "hi" in
  let cfg := Some {| tools :=
                       [{| function_declarations :=
                             convert_all [get_weather] |}] |} in
  exists suffix,
    history run =
      {| parts := Some [text_part "Q: hi"]; role := "user" |} :: suffix
    /\ length suffix <= 2 * length (llm_calls run)
    /\ (forall i resp cand rest c,
          nth_error (llm_calls run) i = Some (Ok resp) ->
          candidates resp = cand :: rest ->
          content cand = Some c ->
          nth_error suffix (2 * i) = Some c)
    /\ (forall i r,
          nth_error (llm_calls run) i = Some r ->
          continues r = true ->
          S i < length (llm_calls run)
          \/ (exists s, answer run = Returned s) ->
          exists resp ps fc payload,
            r = Ok resp
            /\ first_parts resp = Some ps
            /\ first_function_call ps fc
            /\ tool_result_for_llm no_traceback
                 (demo_engine ["weather"] "Q: {query}" 5) i fc = Ok payload
            /\ nth_error suffix (2 * i + 1) =
               Some {| parts :=
                         Some [from_function_response (fc_name fc) payload];
                       role := "user" |})
    /\ ((0 < max_turns (demo_engine ["weather"] "Q: {query}" 5))%Z ->
        hd_error (llm_calls run) =
        Some (scripted weather_script 0
                [{| parts := Some [text_part "Q: hi"]; role := "user" |}] cfg)).
Proof.
  apply (conversation_growth (scripted weather_script) plain_tool no_traceback
           (demo_engine ["weather"] "Q: {query}" 5) "hi" "Q: hi");
    reflexivity.
Defined.

(** A first response whose candidate has no content. *)
Lemma single_call_without_function_call_witness :
  llm_calls (process_user_query
               (scripted [Ok (response_of {| content := None |})])
               plain_tool no_traceback (demo_engine [] "Q: {query}" 3) "hello") =
  [scripted [Ok (response_of {| content := None |})] 0
     [{| parts := Some [text_part "Q: hello"]; role := "user" |}] None]
  /\ history (process_user_query
                (scripted [Ok (response_of {| content := None |})])
                plain_tool no_traceback (demo_engine [] "Q: {query}" 3) "hello")
     = {| parts := Some [text_part "Q: hello"]; role := "user" |}
       :: break_history
            (scripted [Ok (response_of {| content := None |})] 0
               [{| parts := Some [text_part "Q: hello"]; role := "user" |}]
               None).
Proof.
  apply (single_call_without_function_call
           (scripted [Ok (response_of {| content := None |})]) plain_tool
           no_traceback (demo_engine [] "Q: {query}" 3) "hello" "Q: hello");
    reflexivity.
Defined.

(** X17.  The prompt of a template with one substitution point and no other
    brace is the template with the query in the place of [{query}]; the
    query is inserted as it is, braces included. *)
Theorem prompt_substitution (before after user_query : string) :
  brace_free before = true ->
  brace_free after = true ->
  format (before ++ "{query}" ++ after) user_query =
  Formatted (before ++ user_query ++ after).
Proof.
  intros Hb Ha. unfold format.
  rewrite (format_scan_prefix _ _ _ _ Hb).
  change (format_scan ("{query}" ++ after) None ("" ++ before) user_query)
    with (format_scan after None (("" ++ before) ++ user_query) user_query).
  rewrite (format_scan_brace_free _ _ _ Ha).
  now rewrite append_assoc_s.
Qed.

Lemma prompt_substitution_witness :
  format ("Answer: " ++ "{query}" ++ " Be brief.") "why {x}?" =
  Formatted ("Answer: " ++ "why {x}?" ++ " Be brief.").
Proof.
  apply (prompt_substitution "Answer: " " Be brief." "why {x}?");
    reflexivity.
Defined.

(** X18.  After a successful [setup_services] the guard of the query never
    fires.  When the first server of the workflow cannot be connected, the
    engine is left without service, and a query on it returns the error
    string without a call of the gateway.  When the first server is
    connected and fails to list its tools, [setup_services] raises as well,
    but the service stays registered, and the guard does not fire on that
    engine. *)
Theorem setup_then_query (connect : string -> result ClientSession)
  (wname : string) (cfg : WorkflowConfig) :
  (forall eng',
     setup_services connect (new_engine wname cfg) = (eng', Ok tt) ->
     services_missing eng' = false)
  /\ (forall generate_response genai_tool format_exc sname rest e user_query,
        mcp_servers_used cfg = sname :: rest ->
        connect sname = Raise e ->
        snd (setup_services connect (new_engine wname cfg)) = Raise e
        /\ process_user_query generate_response genai_tool format_exc
             (fst (setup_services connect (new_engine wname cfg))) user_query =
           {| answer := Returned "Error: Workflow services are not initialized.";
              history := []; llm_calls := [] |})
  /\ (forall sname rest sess e,
        mcp_servers_used cfg = sname :: rest ->
        connect sname = Ok sess ->
        list_tools sess AtSetup = Raise e ->
        snd (setup_services connect (new_engine wname cfg)) = Raise e
        /\ mcp_services (fst (setup_services connect (new_engine wname cfg))) =
           [(sname, {| server_name := sname; session := sess |})]
        /\ services_missing
             (fst (setup_services connect (new_engine wname cfg))) = false).
Proof.
  splits.
  - intros eng' Hrun. unfold setup_services in Hrun.
    destruct (setup_loop_state _ _ _ _ _ Hrun) as (_ & Hcfg & _ & Hne).
    simpl in *. unfold services_missing. rewrite Hcfg.
    destruct (mcp_servers_used cfg) as [|n names].
    + now destruct (mcp_services eng').
    + destruct (mcp_services eng'); [|reflexivity].
      exfalso. now apply Hne.
  - intros gw gt fe sname rest e q Hnames Hfail. unfold setup_services. simpl.
    rewrite Hnames. simpl. rewrite Hfail. simpl. split; [reflexivity|].
    unfold process_user_query. simpl. now rewrite Hnames.
  - intros sname rest sess e Hnames Hc Hl. unfold setup_services. simpl.
    rewrite Hnames. simpl. rewrite Hc. unfold get_tools. cbn [session].
    rewrite Hl. now splits.
Qed.

(** The only server of the workflow fails to list its tools. *)
Lemma setup_then_query_witness :
  snd (setup_services demo_connect
         (new_engine "demo" (demo_config ["mute"] "{query}" 3))) =
  Raise closed_error
  /\ mcp_services
       (fst (setup_services demo_connect
               (new_engine "demo" (demo_config ["mute"] "{query}" 3)))) =
     [("mute", {| server_name := "mute"; session := mute_session |})]
  /\ services_missing
       (fst (setup_services demo_connect
               (new_engine "demo" (demo_config ["mute"] "{query}" 3)))) = false.
Proof.
  apply (proj2 (proj2 (setup_then_query demo_connect "demo"
                         (demo_config ["mute"] "{query}" 3)))
           "mute" [] mute_session closed_error);
    reflexivity.
Defined.

(** ** The configuration *)

Lemma dict_get_setdefault (k k' : string) (v : pyval) (d : dict) :
  k <> k' -> dict_get k' (setdefault k v d) = dict_get k' d.
Proof.
  intros Hk. unfold setdefault. destruct (dict_get k d); [reflexivity|].
  rewrite dict_get_set. apply String.eqb_neq in Hk. now rewrite Hk.
Qed.

Lemma setdefault_present (k : string) (v w : pyval) (d : dict) :
  dict_get k d = Some w -> setdefault k v d = d.
Proof. intros H. unfold setdefault. now rewrite H. Qed.

(** What a successful [_validate_mcp_servers] leaves. *)
Lemma validate_servers_loop_ok (items : dict) :
  forall items',
  validate_servers_loop items = (items', Ok tt) ->
  Forall2
    (fun a b =>
       fst a = fst b
       /\ exists c args,
            snd a = PDict c
            /\ snd b = PDict (setdefault "transportType" (PStr "stdio") c)
            /\ dict_get "command" c <> None
            /\ dict_get "args" c = Some (PList args)
            /\ dict_get "transportType"
                 (setdefault "transportType" (PStr "stdio") c) =
               Some (PStr "stdio"))
    items items'.
Proof.
  induction items as [|[sname config] items IH]; intros items' H; simpl in H.
  - inversion H. constructor.
  - destruct config as [| | | | | |c|]; try discriminate.
    destruct (dict_get "command" c) as [cmd|] eqn:Hcmd; [|discriminate].
    destruct (dict_get "args" c) as [[| | | | |args| |]|] eqn:Hargs;
      try discriminate.
    destruct (dict_get "transportType"
                (setdefault "transportType" (PStr "stdio") c))
      as [tt_|] eqn:Htt; [|discriminate].
    destruct tt_ as [| | | |s| | |]; try discriminate.
    destruct (s =? "stdio") eqn:Hs.
    + apply String.eqb_eq in Hs. subst s.
      destruct (validate_servers_loop items) as [rest' r] eqn:Hrest.
      inversion H; subst. constructor; [|now apply IH].
      simpl. split; [reflexivity|]. exists c, args. splits; auto. congruence.
    + exfalso. revert H.
      repeat match goal with
             | |- context [match ?x with _ => _ end] =>
                 destruct x; try discriminate
             end.
Qed.

Lemma first_missing_none (keys : list string) (d : dict) :
  first_missing keys d = None ->
  forall key, In key keys -> dict_get key d <> None.
Proof.
  induction keys as [|k keys IH]; simpl; intros H key Hin; [destruct Hin|].
  destruct (dict_get k d) eqn:Hk; [|discriminate].
  destruct Hin as [<-|Hin]; [congruence|now apply IH].
Qed.

Section ConfigProofs.

Variable str_of : pyval -> string.
Variable unhashable_message : pyval -> string.

Lemma check_servers_used_ok (wname : string) (servers : dict)
  (used : list pyval) :
  check_servers_used str_of unhashable_message wname servers used = Ok tt ->
  forall v, In v used ->
    exists sname, v = PStr sname /\ dict_get sname servers <> None.
Proof.
  induction used as [|u used IH]; simpl; intros H v Hin; [destruct Hin|].
  destruct u as [| | | |s| | |]; try discriminate.
  destruct (dict_get s servers) eqn:Hs; [|discriminate].
  destruct Hin as [<-|Hin]; [|now apply IH].
  exists s. split; [reflexivity|congruence].
Qed.

Lemma validate_workflows_loop_ok (servers items : dict) :
  validate_workflows_loop str_of unhashable_message servers items = Ok tt ->
  forall wname v, In (wname, v) items ->
    exists wf used,
      v = PDict wf
      /\ first_missing required_keys wf = None
      /\ dict_get "mcp_servers_used" wf = Some (PList used)
      /\ check_servers_used str_of unhashable_message wname servers used =
         Ok tt.
Proof.
  induction items as [|[w c] items IH]; cbn [validate_workflows_loop];
    intros H wname v Hin; [destruct Hin|].
  destruct c as [| | | | | |wf|]; try discriminate.
  destruct (first_missing required_keys wf) eqn:Hm; [discriminate|].
  destruct (dict_get "mcp_servers_used" wf) as [[| | | | |used| |]|] eqn:Hu;
    try discriminate.
  destruct (check_servers_used str_of unhashable_message w servers used)
    as [[]|e] eqn:Hc; cbn [bind] in H; [|discriminate].
  destruct Hin as [Heq|Hin]; [|now apply IH].
  inversion Heq; subst. now exists wf, used.
Qed.

Lemma load_config_inv (raw_servers raw_workflows : pyval) (cfg : AppConfig) :
  load_config str_of unhashable_message raw_servers raw_workflows = Ok cfg ->
  exists items,
    raw_servers = PDict items
    /\ raw_workflows = PDict (workflows cfg)
    /\ validate_servers_loop items = (mcp_servers cfg, Ok tt)
    /\ validate_workflows_loop str_of unhashable_message (mcp_servers cfg)
         (workflows cfg) = Ok tt.
Proof.
  unfold load_config.
  destruct raw_servers as [| | | | | |items|]; try discriminate.
  destruct (validate_servers_loop items) as [servers [[]|e]] eqn:Hs;
    cbn [bind]; [|discriminate].
  destruct raw_workflows as [| | | | | |wfs|]; try discriminate.
  destruct (validate_workflows_loop str_of unhashable_message servers wfs)
    as [[]|e] eqn:Hw; cbn [bind]; [|discriminate].
  intros H. inversion H; subst. simpl. now exists items.
Qed.

(** X19.  In a configuration that [AppConfig] accepted, every workflow that
    [list_workflows] names is found by [get_workflow_config], has the four
    required keys and a list of servers, and every server of that list is a
    name that [get_mcp_server_config] finds, with a command, a list of
    arguments and the transport [stdio]. *)
Theorem validated_config_resolves (raw_servers raw_workflows : pyval)
  (cfg : AppConfig) (wname : string) :
  load_config str_of unhashable_message raw_servers raw_workflows = Ok cfg ->
  In wname (list_workflows cfg) ->
  exists wf used,
    get_workflow_config cfg wname = Ok (PDict wf)
    /\ (forall key,
          In key ["llm_model"; "mcp_servers_used"; "initial_prompt_template";
                  "max_conversation_turns"] ->
          dict_get key wf <> None)
    /\ dict_get "mcp_servers_used" wf = Some (PList used)
    /\ forall v, In v used ->
         exists sname c args,
           v = PStr sname
           /\ get_mcp_server_config cfg sname = Ok (PDict c)
           /\ dict_get "command" c <> None
           /\ dict_get "args" c = Some (PList args)
           /\ dict_get "transportType" c = Some (PStr "stdio").
Proof.
  intros Hload Hin.
  destruct (load_config_inv _ _ _ Hload) as (items & _ & _ & Hs & Hw).
  unfold list_workflows in Hin. apply in_map_iff in Hin as ([w v] & <- & Hin).
  destruct (in_dict_get _ _ _ Hin) as [v' Hv']. simpl in *.
  apply dict_get_in in Hv' as Hin'.
  destruct (validate_workflows_loop_ok _ _ Hw _ _ Hin')
    as (wf & used & -> & Hm & Hu & Hc).
  exists wf, used. unfold get_workflow_config. rewrite Hv'. splits; auto.
  - exact (first_missing_none _ _ Hm).
  - intros u Hused.
    destruct (check_servers_used_ok _ _ _ Hc u Hused) as (sname & -> & Hsn).
    destruct (dict_get sname (mcp_servers cfg)) as [sc|] eqn:Hsc; [|congruence].
    apply dict_get_in in Hsc as Hsin.
    pose proof (validate_servers_loop_ok _ _ Hs) as Hall.
    assert (Hb : exists a, In a items
                /\ fst a = sname
                /\ exists c args,
                     snd a = PDict c
                     /\ sc = PDict (setdefault "transportType" (PStr "stdio") c)
                     /\ dict_get "command" c <> None
                     /\ dict_get "args" c = Some (PList args)
                     /\ dict_get "transportType"
                          (setdefault "transportType" (PStr "stdio") c) =
                        Some (PStr "stdio")).
    { clear - Hall Hsin. induction Hall as [|a b l l' Hab Hall IH];
        [destruct Hsin|].
      destruct Hsin as [Heq|Hsin].
      - subst b. exists a. split; [now left|].
        destruct Hab as (H1 & c & args & H2). simpl in *.
        split; [exact H1|]. now exists c, args.
      - destruct (IH Hsin) as (a' & Ha' & Hrest). exists a'.
        split; [now right|exact Hrest]. }
    destruct Hb as (a & _ & _ & c & args & _ & -> & Hcmd & Hargs & Htt).
    exists sname, (setdefault "transportType" (PStr "stdio") c), args.
    unfold get_mcp_server_config. rewrite Hsc. splits; auto.
    + rewrite dict_get_setdefault by discriminate. exact Hcmd.
    + rewrite dict_get_setdefault by discriminate. exact Hargs.
Qed.

End ConfigProofs.

Lemma validated_config_resolves_witness :
  exists wf used,
    get_workflow_config
      {| mcp_servers :=
           [("weather",
             PDict [("command", PStr "python");
                    ("args", PList [PStr "weather.py"]);
                    ("transportType", PStr "stdio")])];
         workflows :=
           [("demo",
             PDict [("llm_model", PStr "gemini");
                    ("mcp_servers_used", PList [PStr "weather"]);
                    ("initial_prompt_template", PStr "Q: {query}");
                    ("max_conversation_turns", PInt 3)])] |} "demo" =
    Ok (PDict wf)
    /\ (forall key,
          In key ["llm_model"; "mcp_servers_used"; "initial_prompt_template";
                  "max_conversation_turns"] ->
          dict_get key wf <> None)
    /\ dict_get "mcp_servers_used" wf = Some (PList used)
    /\ forall v, In v used ->
         exists sname c args,
           v = PStr sname
           /\ get_mcp_server_config
                {| mcp_servers :=
                     [("weather",
                       PDict [("command", PStr "python");
                              ("args", PList [PStr "weather.py"]);
                              ("transportType", PStr "stdio")])];
                   workflows :=
                     [("demo",
                       PDict [("llm_model", PStr "gemini");
                              ("mcp_servers_used", PList [PStr "weather"]);
                              ("initial_prompt_template", PStr "Q: {query}");
                              ("max_conversation_turns", PInt 3)])] |} sname =
              Ok (PDict c)
           /\ dict_get "command" c <> None
           /\ dict_get "args" c = Some (PList args)
           /\ dict_get "transportType" c = Some (PStr "stdio").
Proof.
  apply (validated_config_resolves no_str no_str demo_servers demo_workflows).
  - reflexivity.
  - left. reflexivity.
Defined.

(** X20.  A successful [_validate_mcp_servers] keeps the servers and their
    order, changes a configuration only by adding the transport [stdio]
    where none is given, and accepts its own result again without changing
    it. *)
Theorem validate_servers_idempotent (items items' : dict) :
  validate_servers_loop items = (items', Ok tt) ->
  map fst items' = map fst items
  /\ Forall2
       (fun a b =>
          exists c,
            snd a = PDict c
            /\ snd b = PDict (setdefault "transportType" (PStr "stdio") c))
       items items'
  /\ validate_servers_loop items' = (items', Ok tt).
Proof.
  intros H. pose proof (validate_servers_loop_ok _ _ H) as Hall. clear H.
  induction Hall as [|[k v] [k' v'] l l' Hab Hall (IH1 & IH2 & IH3)].
  - splits; [reflexivity|constructor|reflexivity].
  - destruct Hab as (Hk & c & args & Hv & Hv' & Hcmd & Hargs & Htt).
    simpl in *. subst k' v v'. splits.
    + now rewrite IH1.
    + constructor; [now exists c|exact IH2].
    + rewrite dict_get_setdefault by discriminate.
      destruct (dict_get "command" c); [|congruence].
      rewrite dict_get_setdefault by discriminate. rewrite Hargs.
      rewrite (setdefault_present _ _ _ _ Htt), Htt, IH3. reflexivity.
Qed.

Lemma validate_servers_idempotent_witness :
  map fst
    [("weather",
      PDict [("command", PStr "python"); ("args", PList [PStr "weather.py"]);
             ("transportType", PStr "stdio")])] =
  map fst
    [("weather",
      PDict [("command", PStr "python"); ("args", PList [PStr "weather.py"])])].
Proof.
  apply (proj1 (validate_servers_idempotent
                  [("weather",
                    PDict [("command", PStr "python");
                           ("args", PList [PStr "weather.py"])])]
                  _ eq_refl)).
Defined.

(** ** Trimming twice *)




(** ** Logging and the chat loop *)

(** X21.  With logging enabled, the level of the root logger is never above
    the level of a handler that [setup_logging] installs, so the root
    logger holds back nothing a handler would take; there is at most a
    console handler and a file handler, the console handler only for a
    level under [LOG_LEVEL_QUIET]; and when a log file is asked for, the
    root level is at most [DEBUG] even if the file cannot be opened. *)
Theorem root_level_under_handlers (level : Z) (console_level_override : option Z)
  (log_file : option string) (file_opens : bool) :
  let st :=
    setup_logging level console_level_override log_file true file_opens in
  Forall (fun h => (root_level st <= handler_level h)%Z) (root_handlers st)
  /\ (forall l f, In (StreamHandler l f) (root_handlers st) -> (l < 60)%Z)
  /\ length (root_handlers st) <= 2
  /\ (forall path, log_file = Some path -> path <> "" ->
      (root_level st <= 10)%Z).
Proof.
  unfold setup_logging. cbn [negb]. cbv zeta.
  unfold LOG_LEVEL_QUIET, LOG_LEVEL_VERBOSE, CRITICAL, DEBUG.
  cbn [root_level root_handlers]. splits.
  - apply Forall_app. split.
    + destruct (_ <? _)%Z; constructor; [|constructor]. simpl.
      destruct console_level_override, log_file as [path|];
        try destruct (negb (path =? "")); lia.
    + destruct log_file as [path|]; [|constructor].
      destruct (negb (path =? "")); simpl; [|constructor].
      destruct file_opens; constructor; [|constructor]. simpl.
      destruct console_level_override; lia.
  - intros l f Hin. apply in_app_or in Hin as [Hin|Hin].
    + destruct (_ <? _)%Z eqn:Hlt; [|destruct Hin].
      destruct Hin as [Heq|[]]. inversion Heq; subst.
      apply Z.ltb_lt in Hlt. exact Hlt.
    + destruct log_file as [path|]; [|destruct Hin].
      destruct (negb (path =? "") && file_opens); [|destruct Hin].
      destruct Hin as [Heq|[]]. discriminate.
  - rewrite length_app.
    destruct (_ <? _)%Z; destruct log_file as [path|]; simpl;
      try destruct (negb (path =? "") && file_opens); simpl; lia.
  - intros path -> Hpath. apply String.eqb_neq in Hpath. rewrite Hpath.
    simpl. destruct console_level_override; lia.
Qed.

Lemma root_level_under_handlers_witness :
  (root_level
     (setup_logging 20 (Some 25%Z) (Some "app_client.log") true false)
   <= 10)%Z.
Proof.
  apply (proj2 (proj2 (proj2 (root_level_under_handlers 20 (Some 25%Z)
                                (Some "app_client.log") false)))
           "app_client.log").
  - reflexivity.
  - discriminate.
Defined.

(** X22.  For every choice of [--log-level] and [--no-log-file], the
    command line installs a console handler at the chosen level, except
    for [quiet], which installs none; the file handler, at [DEBUG], unless
    file logging is off or the file cannot be opened; a root level of
    [DEBUG] when file logging is on and the chosen level otherwise; and the
    third-party loggers at [INFO] for [verbose], at [WARNING] otherwise. *)
Theorem cli_logging_levels (log_level : log_level_choice)
  (no_log_file file_opens : bool) :
  let st := cli_setup_logging log_level no_log_file file_opens in
  root_level st = (if no_log_file then console_log_level log_level else 10%Z)
  /\ root_handlers st =
     (match log_level with
      | quiet => []
      | user => [StreamHandler 25 "%(message)s"]
      | normal =>
          [StreamHandler 20 "%(asctime)s - %(levelname)-8s - %(message)s"]
      | verbose => [StreamHandler 10 DEFAULT_FORMAT]
      end
      ++ (if negb no_log_file && file_opens
          then [FileHandler "app_client.log" 10 DEFAULT_FORMAT]
          else []))%list
  /\ third_party_level st =
     match log_level with
     | verbose => 20%Z
     | _ => 30%Z
     end.
Proof.
  destruct log_level, no_log_file, file_opens; cbv zeta; splits; reflexivity.
Qed.



